(** * dd-cli: the Datadog command-line client

    A shallow embedding of [dd_cli/http.py] and [dd_cli/cli.py].

    Python text ([str]) is modelled by [string]; a character of the model
    is a code point below 256.  JSON values are the values [json.loads]
    builds.  The HTTP library and the remote API are modelled by the trace
    of events a command produces: every client construction, every request
    together with what the transport answered, and every client release. *)

From Stdlib Require Import String Ascii List ZArith Bool Lia PrimFloat.
From Stdlib Require Import DecimalString.
Import ListNotations.
Local Open Scope list_scope.
Local Open Scope string_scope.

(* ===================================================================== *)
(** * Python strings *)
(* ===================================================================== *)

Module PyStr.

(** [s.startswith(p)] *)
Fixpoint startswith (s p : string) {struct p} : bool :=
  match p, s with
  | EmptyString, _ => true
  | String _ _, EmptyString => false
  | String a p', String b s' => if Ascii.eqb a b then startswith s' p' else false
  end.

(** [s[n:]] *)
Fixpoint drop (n : nat) (s : string) : string :=
  match n, s with
  | O, _ => s
  | S _, EmptyString => EmptyString
  | S n', String _ s' => drop n' s'
  end.

(** [s.removeprefix(p)]: one occurrence of [p] is removed, when [s]
    starts with it. *)
Definition removeprefix (s p : string) : string :=
  if startswith s p then drop (String.length p) s else s.

(** The characters [str.strip()] removes, among the code points below 256:
    U+0009..U+000D, U+001C..U+001F, U+0020, U+0085 and U+00A0. *)
Definition isspace (c : ascii) : bool :=
  let n := nat_of_ascii c in
  (Nat.leb 9 n && Nat.leb n 13) || (Nat.leb 28 n && Nat.leb n 32)
  || Nat.eqb n 133 || Nat.eqb n 160.

(** A character that [strip] keeps *)
Definition nonspace (c : ascii) : bool := negb (isspace c).

Fixpoint lstrip (s : string) : string :=
  match s with
  | EmptyString => EmptyString
  | String c s' => if isspace c then lstrip s' else s
  end.

Fixpoint rstrip (s : string) : string :=
  match s with
  | EmptyString => EmptyString
  | String c s' =>
      match rstrip s' with
      | EmptyString => if isspace c then EmptyString else String c EmptyString
      | r => String c r
      end
  end.

(** [s.strip()] *)
Definition strip (s : string) : string := rstrip (lstrip s).

(** [c in s] for a single character *)
Fixpoint contains (c : ascii) (s : string) : bool :=
  match s with
  | EmptyString => false
  | String a s' => Ascii.eqb a c || contains c s'
  end.

Fixpoint forallb (f : ascii -> bool) (s : string) : bool :=
  match s with
  | EmptyString => true
  | String a s' => f a && forallb f s'
  end.

Fixpoint filter (f : ascii -> bool) (s : string) : string :=
  match s with
  | EmptyString => EmptyString
  | String a s' => if f a then String a (filter f s') else filter f s'
  end.

(** [sep.join(l)] *)
Fixpoint join (sep : string) (l : list string) : string :=
  match l with
  | [] => EmptyString
  | [x] => x
  | x :: rest => x ++ sep ++ join sep rest
  end.

(** [str(n)] for an integer *)
Definition of_Z (z : Z) : string := NilZero.string_of_int (Z.to_int z).

End PyStr.

(* ===================================================================== *)
(** * http.py: site normalisation *)
(* ===================================================================== *)

Module Url.

(** Tab, line feed and carriage return, which [urlsplit] discards *)
Definition is_unsafe (c : ascii) : bool :=
  let n := nat_of_ascii c in Nat.eqb n 9 || Nat.eqb n 10 || Nat.eqb n 13.

(** The characters that end the network location *)
Definition is_delim (c : ascii) : bool :=
  Ascii.eqb c "/" || Ascii.eqb c "?" || Ascii.eqb c "#".

(** the text after the first [":"] (the scheme separator) *)
Fixpoint after_colon (s : string) : string :=
  match s with
  | EmptyString => EmptyString
  | String c s' => if Ascii.eqb c ":" then s' else after_colon s'
  end.

(** the text before the first of ["/"], ["?"] and ["#"] *)
Fixpoint until_delim (s : string) : string :=
  match s with
  | EmptyString => EmptyString
  | String c s' => if is_delim c then EmptyString else String c (until_delim s')
  end.

(** [urllib.parse.urlparse(url).netloc] for a [url] that begins with a
    scheme followed by [":"], which is how [_normalize_site] calls it:
    tabs and line breaks are discarded, the scheme is split off, and when
    ["//"] follows, the network location runs up to the first ["/"], ["?"]
    or ["#"].  [None] stands for the [ValueError] raised on a network
    location with one square bracket but not the other. *)
Definition urlparse_netloc (url : string) : option string :=
  let url := PyStr.filter (fun c => negb (is_unsafe c)) url in
  let rest := after_colon url in
  if PyStr.startswith rest "//" then
    let netloc := until_delim (PyStr.drop 2 rest) in
    if Bool.eqb (PyStr.contains "[" netloc) (PyStr.contains "]" netloc)
    then Some netloc else None
  else Some EmptyString.

(** [_normalize_site(site)]; [None] when [urlparse] raises. *)
Definition _normalize_site (site : string) : option string :=
  let site := PyStr.strip site in
  match (if PyStr.startswith site "http://" || PyStr.startswith site "https://"
         then urlparse_netloc site else Some site) with
  | None => None
  | Some site =>
      Some (if PyStr.startswith site "api."
            then PyStr.removeprefix site "api." else site)
  end.

(** [_api_host(site)] *)
Definition _api_host (site : string) : option string :=
  option_map (fun d => "https://api." ++ d) (_normalize_site site).

(** [_normalize_site(_normalize_site(site))] *)
Definition normalize_twice (site : string) : option string :=
  match _normalize_site site with
  | Some d => _normalize_site d
  | None => None
  end.

(** A character of a host: no white space, no path, query or fragment
    separator, no square bracket. *)
Definition host_char (c : ascii) : bool :=
  negb (PyStr.isspace c) && negb (is_delim c)
  && negb (Ascii.eqb c "[") && negb (Ascii.eqb c "]").

(** A bare domain: host characters, and no leading ["api."]. *)
Definition bare_domain (d : string) : bool :=
  PyStr.forallb host_char d && negb (PyStr.startswith d "api.").

(** A normal form: nothing left for [_normalize_site] to remove. *)
Definition clean (t : string) : bool :=
  String.eqb (PyStr.strip t) t
  && negb (PyStr.startswith t "http://") && negb (PyStr.startswith t "https://")
  && negb (PyStr.startswith t "api.").

(** The ways of writing the site [d] that the program foresees. *)
Definition spellings (d : string) : list string :=
  [d; "api." ++ d; "http://" ++ d; "https://" ++ d;
   "http://api." ++ d; "https://api." ++ d].

End Url.

(* ===================================================================== *)
(** * Python values *)
(* ===================================================================== *)

Module Py.

(** What [json.loads] builds: [None], [bool], [int], [float], [str],
    [list] and [dict] with string keys, the members in insertion order. *)
#[local] Set Warnings "-register-all".
Inductive json : Type :=
| JNull
| JBool (b : bool)
| JInt (z : Z)
| JFloat (f : float)
| JStr (s : string)
| JArr (items : list json)
| JObj (members : list (string * json)).

Definition dict : Type := list (string * json).

(** [bool(v)] *)
Definition truthy (v : json) : bool :=
  match v with
  | JNull => false
  | JBool b => b
  | JInt z => negb (Z.eqb z 0)
  | JFloat f => negb (PrimFloat.eqb f PrimFloat.zero)
  | JStr s => negb (String.eqb s "")
  | JArr l => match l with [] => false | _ => true end
  | JObj d => match d with [] => false | _ => true end
  end.

(** [type(v).__name__] *)
Definition type_name (v : json) : string :=
  match v with
  | JNull => "NoneType"
  | JBool _ => "bool"
  | JInt _ => "int"
  | JFloat _ => "float"
  | JStr _ => "str"
  | JArr _ => "list"
  | JObj _ => "dict"
  end.

(** [d.get(k)] on a [dict] *)
Fixpoint lookup (k : string) (d : dict) : option json :=
  match d with
  | [] => None
  | (k', v) :: d' => if String.eqb k' k then Some v else lookup k d'
  end.

(** [d[k] = v] on a [dict]: a present key keeps its place, a new one goes
    last. *)
Fixpoint store (k : string) (v : json) (d : dict) : dict :=
  match d with
  | [] => [(k, v)]
  | (k', v') :: d' =>
      if String.eqb k' k then (k', v) :: d' else (k', v') :: store k v d'
  end.

(** [{**a, **b}] continued from [a] *)
Definition update (a b : dict) : dict :=
  fold_left (fun acc kv => store (fst kv) (snd kv) acc) b a.

(** The exceptions of the program. *)
Inductive exn : Type :=
| DatadogAPIError (status_code : Z) (message : string) (response_body : string)
| RuntimeError (msg : string)
| UsageError (msg : string)
| ClickException (msg : string)
| AttributeError (msg : string)
| TypeError (msg : string)
| ValueError (msg : string).

(** [str(e)]; [DatadogAPIError.__str__] is the one the program defines. *)
Definition str_exn (e : exn) : string :=
  match e with
  | DatadogAPIError status_code message _ =>
      message ++ " (status=" ++ PyStr.of_Z status_code ++ ")"
  | RuntimeError m | UsageError m | ClickException m
  | AttributeError m | TypeError m | ValueError m => m
  end.

Inductive result (A : Type) : Type :=
| Ok (a : A)
| Raise (e : exn).
Arguments Ok {A} a.
Arguments Raise {A} e.

Definition no_attribute (v : json) (attr : string) : exn :=
  AttributeError ("'" ++ type_name v ++ "' object has no attribute '" ++ attr ++ "'").

(** [v.get(k, default)] on any value: only a [dict] has [get]. *)
Definition get (v : json) (k : string) (default : json) : result json :=
  match v with
  | JObj d => Ok (match lookup k d with Some x => x | None => default end)
  | _ => Raise (no_attribute v "get")
  end.

(** [v[k] = x] on any value, for a string [k] *)
Definition setitem (v : json) (k : string) (x : json) : result json :=
  match v with
  | JObj d => Ok (JObj (store k x d))
  | JArr _ => Raise (TypeError "list indices must be integers or slices, not str")
  | _ => Raise (TypeError ("'" ++ type_name v ++ "' object does not support item assignment"))
  end.

(** [v.setdefault(k, {})[k2] = x]: the value after the statement.  When
    the assignment raises, [v] is as before: [setdefault] changes [v] only
    when it inserts the empty [dict], on which the assignment succeeds. *)
Definition setdefault_setitem (v : json) (k k2 : string) (x : json) : result json :=
  match v with
  | JObj d =>
      let inner := match lookup k d with Some e => e | None => JObj [] end in
      match setitem inner k2 x with
      | Ok inner' => Ok (JObj (store k inner' d))
      | Raise e => Raise e
      end
  | _ => Raise (no_attribute v "setdefault")
  end.

(** [s.split(sep, 1)] for a one-character [sep] *)
Fixpoint split1 (sep : ascii) (s : string) : list string :=
  match s with
  | EmptyString => [EmptyString]
  | String c s' =>
      if Ascii.eqb c sep then [EmptyString; s']
      else match split1 sep s' with
           | h :: t => String c h :: t
           | [] => [String c EmptyString]
           end
  end.

End Py.
Export Py.

(* ===================================================================== *)
(** * The world of a command *)
(* ===================================================================== *)

(** [httpx.Response]: what the program reads from it. *)
Inductive parsed : Type :=
| Parsed (j : json)
| JSONDecodeError (msg : string).

Record response : Type := mkResponse {
  status_code : Z;
  text : string;          (* [resp.text] *)
  json_ : parsed          (* [resp.json()] *)
}.

(** [200 <= status_code <= 299], the test of [raise_for_status] *)
Definition is_success (r : response) : bool :=
  Z.leb 200 (status_code r) && Z.leb (status_code r) 299.

(** What [httpx.Client.request] does: it returns a response, or raises
    [httpx.RequestError] ([msg] is its [str]). *)
Inductive transport : Type :=
| Response (r : response)
| RequestError (msg : string).

Record request : Type := mkRequest {
  base_url : string;
  headers : list (string * string);
  method : string;
  path : string;
  params : option dict;
  json_body : option json
}.

Inductive event : Type :=
| Opened (url : string) (hdrs : list (string * string))  (* [httpx.Client(...)] *)
| Sent (rq : request) (tr : transport)                    (* one HTTP exchange *)
| Closed                                                  (* [client.close()] *)
| Echo (out : string).                                    (* [click.echo(out)] *)

(** The events so far, and the object that [data] names in
    [get_incident_cmd], which [_enrich_incident] updates in place. *)
Record world : Type := mkWorld {
  events : list event;
  incident : json
}.

Definition start : world := mkWorld [] JNull.

Definition log (e : event) (w : world) : world :=
  mkWorld (events w ++ [e])%list (incident w).

(** A computation: it runs in a world and returns or raises. *)
Definition M (A : Type) : Type := world -> result A * world.

Definition ret {A} (a : A) : M A := fun w => (Ok a, w).
Definition raise {A} (e : exn) : M A := fun w => (Raise e, w).
Definition bind {A B} (m : M A) (k : A -> M B) : M B :=
  fun w => match m w with
           | (Ok a, w') => k a w'
           | (Raise e, w') => (Raise e, w')
           end.
Definition lift {A} (r : result A) : M A := fun w => (r, w).

Notation "x <- m ;; k" := (bind m (fun x => k))
  (at level 61, m at next level, right associativity).
Notation "m ;;; k" := (bind m (fun _ => k))
  (at level 61, right associativity).

(** [try: m except ...: h]: [h e] is the handler of the first clause that
    matches [e], [None] when no clause does. *)
Definition try_except {A} (m : M A) (h : exn -> option (M A)) : M A :=
  fun w => match m w with
           | (Ok a, w') => (Ok a, w')
           | (Raise e, w') =>
               match h e with
               | Some k => k w'
               | None => (Raise e, w')
               end
           end.

(** [with mk as dd: body]: the client is closed on every way out. *)
Definition with_ {C A} (mk : M C) (body : C -> M A) : M A :=
  fun w => match mk w with
           | (Ok dd, w') => let (r, w'') := body dd w' in (r, log Closed w'')
           | (Raise e, w') => (Raise e, w')
           end.

Definition get_data : M json := fun w => (Ok (incident w), w).
Definition set_data (j : json) : M unit :=
  fun w => (Ok tt, mkWorld (events w) j).
Definition echo (out : string) : M unit := fun w => (Ok tt, log (Echo out) w).

(* ===================================================================== *)
(** * http.py: the client *)
(* ===================================================================== *)

Section Program.

(** [repr] of a value that is not a [str], and [json.dumps(v, indent=2)]:
    library renderers, left open. *)
Variable repr : json -> string.
Variable dumps : json -> string.
(** [os.getenv] *)
Variable getenv : string -> option string.
(** The remote side: what the transport answers to a request, given the
    events so far. *)
Variable remote : list event -> request -> transport.

(** [str(v)], also what an f-string puts for [{v}] *)
Definition py_str (v : json) : string :=
  match v with
  | JStr s => s
  | _ => repr v
  end.

(** [env(var, default)] *)
Definition env (var : string) (default : option string) : option string :=
  match getenv var with
  | None => default
  | Some v => if String.eqb v "" then default else Some v
  end.

(** [not v] for [v : str | None] *)
Definition absent (v : option string) : bool :=
  match v with
  | None => true
  | Some s => String.eqb s ""
  end.

Record DatadogClient : Type := mkClient {
  client_url : string;
  client_headers : list (string * string)
}.

(** [DatadogClient.__init__] (the time-out, a float, is left out) *)
Definition new_client (site api_key app_key : string) : M DatadogClient :=
  match Url._api_host site with
  | None => raise (ValueError "Invalid IPv6 URL")
  | Some url =>
      let hdrs := [("Accept", "application/json");
                   ("Content-Type", "application/json");
                   ("DD-API-KEY", api_key);
                   ("DD-APPLICATION-KEY", app_key)] in
      fun w => (Ok (mkClient url hdrs), log (Opened url hdrs) w)
  end.

(** [self._client.request(method, path, params=params, json=json_body)] *)
Definition send (rq : request) : M transport :=
  fun w => let tr := remote (events w) rq in (Ok tr, log (Sent rq tr) w).

(** The handler of [httpx.HTTPStatusError] in [_request] *)
Definition status_error (r : response) : exn :=
  let msg :=
    match json_ r with
    | Parsed (JObj payload) =>
        match lookup "errors" payload with
        | Some errors =>
            if truthy errors then
              match errors with
              | JArr errs => PyStr.join "; " (map py_str errs)
              | JObj d => PyStr.join "; " (map fst d)
              | JStr s =>
                  PyStr.join "; "
                    (map (fun c => String c EmptyString) (list_ascii_of_string s))
              | _ => "Datadog API error"   (* not iterable: swallowed *)
              end
            else "Datadog API error"
        | None => "Datadog API error"
        end
    | _ => "Datadog API error"
    end in
  DatadogAPIError (status_code r) msg (text r).

(** [DatadogClient._request] *)
Definition _request (dd : DatadogClient) (method path : string)
    (params : option dict) (json_body : option json) : M json :=
  tr <- send (mkRequest (client_url dd) (client_headers dd)
                method path params json_body) ;;
  match tr with
  | RequestError m => raise (RuntimeError ("Network error: " ++ m))
  | Response r =>
      if is_success r then
        match json_ r with
        | Parsed j => ret j
        | JSONDecodeError m => raise (RuntimeError ("Invalid JSON response: " ++ m))
        end
      else raise (status_error r)
  end.

(** [get_incident(incident_id, include=include)] *)
Definition get_incident (dd : DatadogClient) (incident_id : string)
    (include : option string) : M json :=
  let params :=
    match include with
    | Some i => if String.eqb i "" then None else Some [("include", JStr i)]
    | None => None
    end in
  _request dd "GET" ("/api/v2/incidents/" ++ incident_id) params None.

(** [get_incident_type(incident_type_uuid)] *)
Definition get_incident_type (dd : DatadogClient) (incident_type_uuid : json) : M json :=
  _request dd "GET"
    ("/api/v2/incidents/config/types/" ++ py_str incident_type_uuid) None None.

(** [get_incident_integrations(incident_id)] *)
Definition get_incident_integrations (dd : DatadogClient) (incident_id : json) : M json :=
  _request dd "GET"
    ("/api/v2/incidents/" ++ py_str incident_id ++ "/relationships/integrations")
    None None.

(** [update_incident(incident_id, attributes=attributes)] *)
Definition update_incident (dd : DatadogClient) (incident_id : string)
    (attributes : dict) : M json :=
  let payload :=
    JObj [("data", JObj [("type", JStr "incidents");
                         ("id", JStr incident_id);
                         ("attributes", JObj attributes)])] in
  _request dd "PATCH" ("/api/v2/incidents/" ++ incident_id) None (Some payload).

(** The arguments of [search_logs] that stay the same from page to page *)
Record search_args : Type := mkSearch {
  query : string;
  time_from : string;
  time_to : string;
  limit : Z;
  indexes : list string;          (* [None] and [[]] are both falsy *)
  storage_tier : option string
}.

(** The request body of [search_logs] *)
Definition search_body (a : search_args) (cursor : json) : json :=
  let filter0 := [("query", JStr (query a));
                  ("from", JStr (time_from a));
                  ("to", JStr (time_to a))] in
  let filter1 :=
    match indexes a with
    | [] => filter0
    | ix => store "indexes" (JArr (map JStr ix)) filter0
    end in
  let filter2 :=
    if absent (storage_tier a) then filter1
    else store "storage_tier"
           (JStr (match storage_tier a with Some t => t | None => "" end)) filter1 in
  let page0 := [("limit", JInt (limit a))] in
  let page1 := if truthy cursor then store "cursor" cursor page0 else page0 in
  JObj [("filter", JObj filter2); ("sort", JStr "-timestamp"); ("page", JObj page1)].

(** [search_logs(query=..., ..., cursor=cursor, ...)] *)
Definition search_logs (dd : DatadogClient) (a : search_args) (cursor : json) : M json :=
  _request dd "POST" "/api/v2/logs/events/search" None (Some (search_body a cursor)).

(** [validate()] *)
Definition validate (dd : DatadogClient) : M json :=
  _request dd "GET" "/api/v1/validate" None None.

(* ===================================================================== *)
(** * cli.py: the commands *)
(* ===================================================================== *)

(** [_default_site()] *)
Definition _default_site : string :=
  match env "DD_SITE" (Some "us3.datadoghq.com") with
  | Some s => s
  | None => "us3.datadoghq.com"
  end.

(** [_get_client(site)] *)
Definition _get_client (site : string) : M DatadogClient :=
  let api_key := env "DD_API_KEY" None in
  let app_key := env "DD_APP_KEY" None in
  if absent api_key || absent app_key then
    raise (UsageError "DD_API_KEY and DD_APP_KEY must be set. The v2 APIs require both.")
  else
    new_client site
      (match api_key with Some k => k | None => "" end)
      (match app_key with Some k => k | None => "" end).

(** [_handle_api_error(e)], for [e] a [DatadogAPIError] *)
Definition _handle_api_error {A} (e : exn) : M A :=
  match e with
  | DatadogAPIError status _ body =>
      raise (ClickException
               (dumps (JObj [("error", JStr (str_exn e));
                             ("status", JInt status);
                             ("body", JStr body)])))
  | _ => raise e
  end.

(** The two [except] clauses every command ends its [try] with *)
Definition cli_handlers {A} (e : exn) : option (M A) :=
  match e with
  | DatadogAPIError _ _ _ => Some (_handle_api_error e)
  | RuntimeError m => Some (raise (ClickException m))
  | _ => None
  end.

(** [except DatadogAPIError: pass] *)
Definition pass_api_error (e : exn) : option (M unit) :=
  match e with
  | DatadogAPIError _ _ _ => Some (ret tt)
  | _ => None
  end.

(** [data.setdefault("enrichment", {})[k] = x] on the incident *)
Definition enrich_with (k : string) (x : json) : M unit :=
  data <- get_data ;;
  data' <- lift (setdefault_setitem data "enrichment" k x) ;;
  set_data data'.

(** The body of the outer [try] of [_enrich_incident] *)
Definition enrich_body (dd : DatadogClient) : M unit :=
  data <- get_data ;;
  d <- lift (get data "data" (JObj [])) ;;
  attrs <- lift (get d "attributes" (JObj [])) ;;
  incident_type_uuid <- lift (get attrs "incident_type_uuid" JNull) ;;
  (if truthy incident_type_uuid then
     try_except
       (type_data <- get_incident_type dd incident_type_uuid ;;
        enrich_with "incident_type" type_data)
       pass_api_error
   else ret tt) ;;;
  try_except
    (data <- get_data ;;
     d <- lift (get data "data" (JObj [])) ;;
     incident_id <- lift (get d "id" (JStr "")) ;;
     if truthy incident_id then
       integrations_data <- get_incident_integrations dd incident_id ;;
       enrich_with "integrations" integrations_data
     else ret tt)
    pass_api_error.

(** [_enrich_incident(dd, data)], [data] being the incident of the world *)
Definition _enrich_incident (dd : DatadogClient) : M unit :=
  try_except (enrich_body dd)
    (fun e => Some (enrich_with "errors" (JStr ("Enrichment failed: " ++ str_exn e)))).

(** [get_incident_cmd] *)
Definition get_incident_cmd (incident_id site : string)
    (include_param : option string) (enrich : bool) : M unit :=
  try_except
    (with_ (_get_client site) (fun dd =>
       data <- get_incident dd incident_id include_param ;;
       set_data data ;;;
       if enrich then _enrich_incident dd else ret tt))
    cli_handlers ;;;
  data <- get_data ;;
  echo (dumps data).

(** The type of a custom field, from its name *)
Definition field_type_of (key : string) : string :=
  if existsb (String.eqb key) ["severity"; "state"; "detection_method"] then "dropdown"
  else if existsb (String.eqb key) ["teams"; "services"] then "autocomplete"
  else if existsb (String.eqb key) ["trigger"; "root_cause_type"; "impact_type"]
       then "multiselect"
  else "textbox".

(** The value of a custom field, from its type and the text given *)
Definition field_value_of (field_type value : string) : json :=
  let nonempty := negb (String.eqb value "") in
  if String.eqb field_type "multiselect" then
    if nonempty then JArr [JStr value] else JNull
  else if String.eqb field_type "autocomplete" && nonempty then
    if negb (PyStr.startswith value "[") then JArr [JStr value] else JStr value
  else
    if nonempty then JStr value else JNull.

(** The loop of [_parse_custom_fields], [fields] being the [dict] built
    so far *)
Fixpoint parse_fields_from (field : list string) (fields : dict) : result dict :=
  match field with
  | [] => Ok fields
  | f :: rest =>
      if negb (PyStr.contains "=" f) then
        Raise (UsageError ("Invalid field format: " ++ f ++ ". Use key=value format."))
      else
        match split1 "=" f with
        | [key; value] =>
            let field_type := field_type_of key in
            let field_value := field_value_of field_type value in
            parse_fields_from rest
              (store key (JObj [("type", JStr field_type); ("value", field_value)]) fields)
        | _ => Raise (ValueError "not enough values to unpack (expected 2, got 1)")
        end
  end.

(** [_parse_custom_fields(field)] *)
Definition _parse_custom_fields (field : list string) : result dict :=
  parse_fields_from field [].

(** The options of [update-incident] *)
Record update_options : Type := mkUpdate {
  title : option string;
  severity : option string;
  state : option string;
  customer_impacted : option bool;
  customer_impact_scope : option string;
  field : list string
}.

Definition set_opt {A} (k : string) (inj : A -> json) (o : option A) (d : dict) : dict :=
  match o with
  | Some v => store k (inj v) d
  | None => d
  end.

(** [_build_update_attributes(...)] *)
Definition _build_update_attributes (o : update_options) : result dict :=
  let attributes :=
    set_opt "customer_impact_scope" JStr (customer_impact_scope o)
      (set_opt "customer_impacted" JBool (customer_impacted o)
         (set_opt "state" JStr (state o)
            (set_opt "severity" JStr (severity o)
               (set_opt "title" JStr (title o) [])))) in
  match field o with
  | [] => Ok attributes
  | fs =>
      match _parse_custom_fields fs with
      | Raise e => Raise e
      | Ok [] => Ok attributes
      | Ok fields => Ok (store "fields" (JObj fields) attributes)
      end
  end.

(** [update_incident_cmd] *)
Definition update_incident_cmd (incident_id site : string) (o : update_options) : M unit :=
  attributes <- lift (_build_update_attributes o) ;;
  match attributes with
  | [] => raise (UsageError "No updates specified. Use --help to see available options.")
  | _ =>
      data <- try_except
                (with_ (_get_client site) (fun dd =>
                   update_incident dd incident_id attributes))
                cli_handlers ;;
      echo (dumps data)
  end.

(** [validate_cmd] *)
Definition validate_cmd (site : string) : M unit :=
  let api_key := env "DD_API_KEY" None in
  if absent api_key then raise (UsageError "DD_API_KEY must be set")
  else
    let app_key :=
      match env "DD_APP_KEY" None with
      | Some k => if String.eqb k "" then "unused" else k
      | None => "unused"
      end in
    data <- try_except
              (with_ (new_client site
                        (match api_key with Some k => k | None => "" end) app_key)
                 (fun dd => validate dd))
              cli_handlers ;;
    match data with
    | JObj d => echo (dumps (JObj (update [("status", JInt 200)] d)))
    | _ => raise (TypeError ("'" ++ type_name data ++ "' object is not a mapping"))
    end.

(** [data.get("data", [])], kept when it is a list *)
Definition page_logs (data : json) : result (list json) :=
  match get data "data" (JArr []) with
  | Ok (JArr logs) => Ok logs
  | Ok _ => Ok []
  | Raise e => Raise e
  end.

(** [(data.get("meta") or {}).get("page", {}).get("after")] *)
Definition page_cursor (data : json) : result json :=
  match get data "meta" JNull with
  | Raise e => Raise e
  | Ok meta =>
      match get (if truthy meta then meta else JObj []) "page" (JObj []) with
      | Raise e => Raise e
      | Ok page => get page "after" JNull
      end
  end.

(** The body of [for _ in range(n)] in [search_logs_cmd], with the loop
    variables [cursor] and [all_logs]; it returns [all_logs]. *)
Fixpoint search_loop (dd : DatadogClient) (a : search_args) (n : nat)
    (cursor : json) (all_logs : list json) : M (list json) :=
  match n with
  | O => ret all_logs
  | S n' =>
      data <- search_logs dd a cursor ;;
      logs <- lift (page_logs data) ;;
      let all_logs := (all_logs ++ logs)%list in
      cursor <- lift (page_cursor data) ;;
      if negb (truthy cursor) then ret all_logs
      else search_loop dd a n' cursor all_logs
  end.

(** [search_logs_cmd]; the command leaves [indexes] unset. *)
Definition search_logs_cmd (query site time_from time_to : string) (limit : Z)
    (storage_tier : option string) (all_pages : bool) : M unit :=
  let a := mkSearch query time_from time_to limit [] storage_tier in
  let max_pages := if all_pages then 50%nat else 1%nat in
  all_logs <- try_except
                (with_ (_get_client site) (fun dd =>
                   search_loop dd a max_pages JNull []))
                cli_handlers ;;
  echo (dumps (JObj [("data", JArr all_logs);
                     ("count", JInt (Z.of_nat (List.length all_logs)))])).

End Program.

(* ===================================================================== *)
(** * The vocabulary of the statements *)
(* ===================================================================== *)

(** The key and the value of an argument [key=value] *)
Definition arg_key (f : string) : string :=
  match split1 "=" f with k :: _ => k | [] => "" end.

Definition arg_value (f : string) : string :=
  match split1 "=" f with [_; v] => v | _ => "" end.

(** The record [{"type": t, "value": v}] *)
Definition record (t : string) (v : json) : json :=
  JObj [("type", JStr t); ("value", v)].

Definition encode (f : string) : json :=
  record (field_type_of (arg_key f))
         (field_value_of (field_type_of (arg_key f)) (arg_value f)).

(** The request a client sends *)
Definition request_of (dd : DatadogClient) (method path : string)
    (params : option dict) (json_body : option json) : request :=
  mkRequest (client_url dd) (client_headers dd) method path params json_body.

(** The headers of a client *)
Definition headers_of (api_key app_key : string) : list (string * string) :=
  [("Accept", "application/json"); ("Content-Type", "application/json");
   ("DD-API-KEY", api_key); ("DD-APPLICATION-KEY", app_key)].

Definition validate_request (host api_key app_key : string) : request :=
  mkRequest ("https://api." ++ host) (headers_of api_key app_key)
    "GET" "/api/v1/validate" None None.

(** The request of [get_incident] *)
Definition incident_request (dd : DatadogClient) (incident_id : string)
    (include : option string) : request :=
  request_of dd "GET" ("/api/v2/incidents/" ++ incident_id)
    (match include with
     | Some i => if String.eqb i "" then None else Some [("include", JStr i)]
     | None => None
     end) None.

(** The exchanges of a world, in order *)
Definition exchanges (w : world) : list (request * transport) :=
  flat_map (fun e => match e with Sent rq tr => [(rq, tr)] | _ => [] end) (events w).

(** The request of [search_logs] *)
Definition search_request (dd : DatadogClient) (a : search_args) (cursor : json) : request :=
  request_of dd "POST" "/api/v2/logs/events/search" None (Some (search_body a cursor)).


(** What the loop reads off an answer, when the answer is a page: its log
    entries and its cursor *)
Definition page_of (tr : transport) : option (list json * json) :=
  match tr with
  | Response r =>
      if is_success r then
        match json_ r with
        | Parsed data =>
            match page_logs data, page_cursor data with
            | Ok logs, Ok c => Some (logs, c)
            | _, _ => None
            end
        | JSONDecodeError _ => None
        end
      else None
  | RequestError _ => None
  end.

(** The log entries of a run of exchanges, page after page *)
Definition entries (xs : list (json * transport)) : list json :=
  flat_map (fun x => match page_of (snd x) with Some (logs, _) => logs | None => [] end) xs.



(** [v[k1][k2]], when both are there *)
Definition member2 (v : json) (k1 k2 : string) : option json :=
  match v with
  | JObj d => match lookup k1 d with Some (JObj e) => lookup k2 e | _ => None end
  | _ => None
  end.


(** [data.get("data", {}).get("attributes", {}).get("incident_type_uuid")] *)
Definition type_uuid (d : dict) : result json :=
  match get (JObj d) "data" (JObj []) with
  | Raise e => Raise e
  | Ok x =>
      match get x "attributes" (JObj []) with
      | Raise e => Raise e
      | Ok attrs => get attrs "incident_type_uuid" JNull
      end
  end.

(** What [_request] makes of an answer *)
Definition outcome_of (repr : json -> string) (tr : transport) : result json :=
  match tr with
  | Response r =>
      if is_success r then
        match json_ r with
        | Parsed j => Ok j
        | JSONDecodeError m => Raise (RuntimeError ("Invalid JSON response: " ++ m))
        end
      else Raise (status_error repr r)
  | RequestError m => Raise (RuntimeError ("Network error: " ++ m))
  end.



Section Blocks.

Variable repr : json -> string.
Variable remote : list event -> request -> transport.

(** The request of [get_incident_type] *)
Definition type_request (dd : DatadogClient) (uuid : json) : request :=
  request_of dd "GET" ("/api/v2/incidents/config/types/" ++ py_str repr uuid) None None.

(** The request of [get_incident_integrations] *)
Definition integrations_request (dd : DatadogClient) (id : json) : request :=
  request_of dd "GET"
    ("/api/v2/incidents/" ++ py_str repr id ++ "/relationships/integrations") None None.

(** The first inner [try] of the enrichment *)
Definition type_block (dd : DatadogClient) (uuid : json) : M unit :=
  try_except
    (type_data <- get_incident_type repr remote dd uuid ;;
     enrich_with "incident_type" type_data)
    pass_api_error.

(** The second inner [try] of the enrichment *)
Definition integrations_block (dd : DatadogClient) : M unit :=
  try_except
    (data <- get_data ;;
     d <- lift (get data "data" (JObj [])) ;;
     incident_id <- lift (get d "id" (JStr "")) ;;
     if truthy incident_id then
       integrations_data <- get_incident_integrations repr remote dd incident_id ;;
       enrich_with "integrations" integrations_data
     else ret tt)
    pass_api_error.

End Blocks.

(* ===================================================================== *)
(** * Sample surroundings, for running the commands *)
(* ===================================================================== *)

Module Sample.

(** A stand-in for the two library renderers: it shows the type of the
    value only. *)
Definition render (v : json) : string := "<" ++ type_name v ++ ">".

(** An environment given by its variables *)
Fixpoint environ (vars : list (string * string)) (var : string) : option string :=
  match vars with
  | [] => None
  | (k, v) :: rest => if String.eqb k var then Some v else environ rest var
  end.

Definition sent_so_far (history : list event) : nat :=
  List.length (flat_map (fun e => match e with Sent _ _ => [e] | _ => [] end) history).

(** A remote side that gives the answers of [script] in turn, and refuses
    the connection once they are used up. *)
Definition script (answers : list transport) (history : list event) (_ : request)
  : transport :=
  nth (sent_so_far history) answers (RequestError "connection refused").

(** The double quote *)
Definition q : string := String (Ascii.ascii_of_nat 34) EmptyString.

Definition keys : list (string * string) :=
  [("DD_API_KEY", "k-api"); ("DD_APP_KEY", "k-app")].

(** A response whose body is the JSON text of [j] *)
Definition answer (status : Z) (body : string) (j : json) : transport :=
  Response (mkResponse status body (Parsed j)).

End Sample.

(* ===================================================================== *)
(** * More vocabulary: credentials, sessions, incidents *)
(* ===================================================================== *)

(** A variable that is not set, or set to the empty text *)
Definition unset (getenv : string -> option string) (var : string) : Prop :=
  getenv var = None \/ getenv var = Some "".

(** A text of white space only *)
Definition all_space (s : string) : bool := PyStr.forallb PyStr.isspace s.

(** [data.get("data", {}).get("id", "")] *)
Definition incident_id_of (d : dict) : result json :=
  match get (JObj d) "data" (JObj []) with
  | Raise e => Raise e
  | Ok x => get x "id" (JStr "")
  end.

(** The keys of a [dict], in order *)
Definition keys_of (d : dict) : list string := map fst d.

(** The printed events among some events *)
Definition echoes (evs : list event) : list string :=
  flat_map (fun e => match e with Echo out => [out] | _ => [] end) evs.

(** The object that [_handle_api_error] prints for an API error *)
Definition api_error_object (status : Z) (message body : string) : json :=
  JObj [("error", JStr (message ++ " (status=" ++ PyStr.of_Z status ++ ")"));
        ("status", JInt status);
        ("body", JStr body)].


(** The exception that leaves a command when [e] leaves its [with] block:
    the two [except] clauses turn an API error into its printed object and
    a runtime error into its text. *)
Definition at_boundary (dumps : json -> string) (e : exn) : exn :=
  match e with
  | DatadogAPIError status message body =>
      ClickException (dumps (api_error_object status message body))
  | RuntimeError m => ClickException m
  | _ => e
  end.

(** An exchange made through the client [dd] *)
Definition sent_by (dd : DatadogClient) (e : event) : Prop :=
  exists rq tr, e = Sent rq tr
                /\ base_url rq = client_url dd /\ headers rq = client_headers dd.

(** A computation that does nothing to the events but add at most [n]
    exchanges through [dd] *)
Definition sends {A} (dd : DatadogClient) (n : nat) (m : M A) : Prop :=
  forall w, exists sents,
    events (snd (m w)) = (events w ++ sents)%list
    /\ List.length sents <= n
    /\ Forall (sent_by dd) sents.

(** What a command adds to the events: nothing when it fails before it has
    a client; or the client's construction, at most [n] exchanges through
    it, its release, and then, only when the command returns, one printed
    text. *)
Definition session (n : nat) (res : result unit) (added : list event) : Prop :=
  (added = [] /\ exists e, res = Raise e)
  \/ exists dd sents,
       List.length sents <= n
       /\ Forall (sent_by dd) sents
       /\ ((exists out, res = Ok tt
                        /\ added = (Opened (client_url dd) (client_headers dd) :: sents
                                    ++ [Closed; Echo out])%list)
           \/ (exists e, res = Raise e
                         /\ added = (Opened (client_url dd) (client_headers dd) :: sents
                                     ++ [Closed])%list)).

(* ===================================================================== *)
(** * The models at work *)
(* ===================================================================== *)

Example normalize_strips_scheme_and_path :
  Url._normalize_site "  http://api.datadoghq.eu/api/v1?x=1 " = Some "datadoghq.eu".
Proof. reflexivity. Qed.

Example normalize_unbalanced_bracket : Url._normalize_site "http://[::1" = None.
Proof. reflexivity. Qed.

Example of_Z_decimal :
  PyStr.of_Z 404 = "404" /\ PyStr.of_Z (-3) = "-3" /\ PyStr.of_Z 0 = "0".
Proof. repeat split; reflexivity. Qed.

Example split1_first_only : split1 "=" "note=a=b" = ["note"; "a=b"].
Proof. reflexivity. Qed.

Example str_of_api_error :
  str_exn (DatadogAPIError 404 "not found" "{}") = "not found (status=404)".
Proof. reflexivity. Qed.

(* ===================================================================== *)
(** * Site normalisation *)
(* ===================================================================== *)

Module UrlFacts.
Import PyStr Url.

Lemma forallb_app f s t : forallb f (s ++ t) = forallb f s && forallb f t.
Proof.
  induction s as [|c s IH]; simpl; [reflexivity|].
  rewrite IH. now rewrite andb_assoc.
Qed.

Lemma startswith_forallb f s p :
  startswith s p = true -> forallb f s = true -> forallb f p = true.
Proof.
  revert s. induction p as [|a p IH]; intros [|b s]; simpl; try easy.
  destruct (Ascii.eqb_spec a b) as [->|]; [|easy].
  intros Hp [Hb Hs]%andb_prop. rewrite Hb. simpl. eauto.
Qed.

Lemma host_char_nonspace c : host_char c = true -> isspace c = false.
Proof.
  unfold host_char. intros H.
  destruct (isspace c); [discriminate H | reflexivity].
Qed.

Lemma isspace_unsafe c : isspace c = false -> is_unsafe c = false.
Proof.
  destruct c as [[] [] [] [] [] [] [] []]; vm_compute; congruence.
Qed.

Lemma host_char_delim c : host_char c = true -> is_delim c = false.
Proof.
  unfold host_char. intros H.
  destruct (is_delim c); [|reflexivity].
  rewrite andb_false_r in H. discriminate H.
Qed.

Lemma host_char_bracket c :
  host_char c = true -> Ascii.eqb c "[" = false /\ Ascii.eqb c "]" = false.
Proof.
  unfold host_char. intros H.
  destruct (Ascii.eqb c "["), (Ascii.eqb c "]"); auto;
    rewrite ?andb_false_r in H; discriminate H.
Qed.

Lemma host_nonspace s : forallb host_char s = true -> forallb nonspace s = true.
Proof.
  induction s as [|c s IH]; simpl; [reflexivity|].
  intros [Hc Hs]%andb_prop. unfold nonspace at 1.
  rewrite (host_char_nonspace _ Hc). simpl. auto.
Qed.

Lemma lstrip_nonspace s : forallb nonspace s = true -> lstrip s = s.
Proof.
  destruct s as [|c s]; simpl; [reflexivity|].
  unfold nonspace at 1. intros [Hc _]%andb_prop.
  apply negb_true_iff in Hc. now rewrite Hc.
Qed.

Lemma rstrip_nonspace s : forallb nonspace s = true -> rstrip s = s.
Proof.
  induction s as [|c s IH]; simpl; [reflexivity|].
  unfold nonspace at 1. intros [Hc Hs]%andb_prop. rewrite (IH Hs).
  apply negb_true_iff in Hc. destruct s; [now rewrite Hc | reflexivity].
Qed.

Lemma strip_nonspace s : forallb nonspace s = true -> strip s = s.
Proof.
  intros H. unfold strip. rewrite (lstrip_nonspace _ H). now apply rstrip_nonspace.
Qed.

Lemma strip_host s : forallb host_char s = true -> strip s = s.
Proof. intros H. apply strip_nonspace, host_nonspace, H. Qed.

Lemma filter_host s :
  forallb host_char s = true -> filter (fun c => negb (is_unsafe c)) s = s.
Proof.
  induction s as [|c s IH]; simpl; [reflexivity|].
  intros [Hc Hs]%andb_prop.
  rewrite (isspace_unsafe _ (host_char_nonspace _ Hc)). simpl. now rewrite IH.
Qed.

Lemma until_delim_host s : forallb host_char s = true -> until_delim s = s.
Proof.
  induction s as [|c s IH]; simpl; [reflexivity|].
  intros [Hc Hs]%andb_prop. rewrite (host_char_delim _ Hc). now rewrite IH.
Qed.

Lemma contains_host s :
  forallb host_char s = true -> contains "[" s = false /\ contains "]" s = false.
Proof.
  induction s as [|c s IH]; simpl; [auto|].
  intros [Hc Hs]%andb_prop. destruct (host_char_bracket _ Hc) as [H1 H2].
  destruct (IH Hs) as [H3 H4]. now rewrite H1, H2, H3, H4.
Qed.

(** The network location of [scheme://r], for [r] made of host characters *)
Lemma netloc_host (scheme r : string) :
  forallb host_char r = true ->
  In scheme ["http"; "https"] ->
  urlparse_netloc (scheme ++ "://" ++ r) = Some r.
Proof.
  intros Hr Hs. unfold urlparse_netloc.
  assert (Hf : filter (fun c => negb (is_unsafe c)) (scheme ++ "://" ++ r)
               = scheme ++ "://" ++ r).
  { destruct Hs as [<-|[<-|[]]]; simpl; now rewrite (filter_host _ Hr). }
  rewrite Hf.
  assert (Ha : after_colon (scheme ++ "://" ++ r) = "//" ++ r).
  { destruct Hs as [<-|[<-|[]]]; reflexivity. }
  rewrite Ha. simpl. rewrite (until_delim_host _ Hr).
  destruct (contains_host _ Hr) as [-> ->]. reflexivity.
Qed.

Lemma no_scheme_host s :
  forallb host_char s = true ->
  startswith s "http://" = false /\ startswith s "https://" = false.
Proof.
  intros H. split.
  - destruct (startswith s "http://") eqn:E; [|reflexivity].
    now pose proof (startswith_forallb host_char _ _ E H).
  - destruct (startswith s "https://") eqn:E; [|reflexivity].
    now pose proof (startswith_forallb host_char _ _ E H).
Qed.

Lemma normalize_bare d : bare_domain d = true -> _normalize_site d = Some d.
Proof.
  unfold bare_domain. intros [Hd Ha]%andb_prop.
  unfold _normalize_site. rewrite (strip_host _ Hd).
  destruct (no_scheme_host _ Hd) as [-> ->].
  apply negb_true_iff in Ha. cbn [orb]. now rewrite Ha.
Qed.

Lemma normalize_clean t : clean t = true -> _normalize_site t = Some t.
Proof.
  unfold clean. intros H.
  apply andb_prop in H as [H Ha]. apply andb_prop in H as [H Hs].
  apply andb_prop in H as [He Hh].
  apply String.eqb_eq in He. apply negb_true_iff in Ha, Hs, Hh.
  unfold _normalize_site. rewrite He, Hh, Hs. cbn [orb]. now rewrite Ha.
Qed.

Lemma normalize_scheme scheme r :
  In scheme ["http"; "https"] ->
  forallb host_char r = true ->
  _normalize_site (scheme ++ "://" ++ r)
  = Some (if startswith r "api." then removeprefix r "api." else r).
Proof.
  intros Hs Hr.
  assert (Hstrip : strip (scheme ++ "://" ++ r) = scheme ++ "://" ++ r).
  { apply strip_nonspace. rewrite !forallb_app, (host_nonspace _ Hr).
    destruct Hs as [<-|[<-|[]]]; reflexivity. }
  assert (Hstart : startswith (scheme ++ "://" ++ r) "http://"
                   || startswith (scheme ++ "://" ++ r) "https://" = true).
  { destruct Hs as [<-|[<-|[]]]; reflexivity. }
  unfold _normalize_site. rewrite Hstrip, Hstart.
  now rewrite (netloc_host _ _ Hr Hs).
Qed.

Lemma normalize_spelling d s :
  bare_domain d = true -> In s (spellings d) -> _normalize_site s = Some d.
Proof.
  intros Hb Hin. pose proof Hb as Hb'. unfold bare_domain in Hb'.
  apply andb_prop in Hb' as [Hd Ha]. apply negb_true_iff in Ha.
  assert (Hapi : forallb host_char ("api." ++ d) = true)
    by (rewrite forallb_app, Hd; reflexivity).
  unfold spellings in Hin. cbn [In] in Hin.
  destruct Hin as [<-|[<-|[<-|[<-|[<-|[<-|[]]]]]]].
  - now apply normalize_bare.
  - unfold _normalize_site. rewrite (strip_host _ Hapi).
    destruct (no_scheme_host _ Hapi) as [-> ->]. reflexivity.
  - change (_normalize_site ("http" ++ "://" ++ d) = Some d).
    rewrite normalize_scheme by (simpl; auto). now rewrite Ha.
  - change (_normalize_site ("https" ++ "://" ++ d) = Some d).
    rewrite normalize_scheme by (simpl; auto). now rewrite Ha.
  - change (_normalize_site ("http" ++ "://" ++ "api." ++ d) = Some d).
    now rewrite normalize_scheme by (simpl; auto).
  - change (_normalize_site ("https" ++ "://" ++ "api." ++ d) = Some d).
    now rewrite normalize_scheme by (simpl; auto).
Qed.

End UrlFacts.

(** C2 (as stated, refuted): normalising twice is not normalising once.
    On ["api.api.us3.datadoghq.com"] one pass removes one ["api."] and the
    second pass removes another. *)
Lemma normalize_site_twice_differs :
  Url._normalize_site "api.api.us3.datadoghq.com" = Some "api.us3.datadoghq.com"
  /\ Url.normalize_twice "api.api.us3.datadoghq.com" = Some "us3.datadoghq.com".
Proof. split; reflexivity. Qed.

(** C2 (amended): normalisation is idempotent on every input whose
    normalised form is clean, that is, has no surrounding white space and
    no leading ["http://"], ["https://"] or ["api."]; it removes a scheme
    and one leading ["api."], so every foreseen spelling of a bare domain
    normalises to that domain, and stays there; in particular
    ["https://api.us3.datadoghq.com"] and ["us3.datadoghq.com"] both give
    ["us3.datadoghq.com"]. *)
Theorem normalize_site_idempotent_on_clean :
  (forall s t : string,
      Url._normalize_site s = Some t -> Url.clean t = true ->
      Url.normalize_twice s = Url._normalize_site s)
  /\ (forall d s : string,
      Url.bare_domain d = true -> In s (Url.spellings d) ->
      Url._normalize_site s = Some d
      /\ Url.normalize_twice s = Url._normalize_site s)
  /\ Url._normalize_site "https://api.us3.datadoghq.com" = Some "us3.datadoghq.com"
  /\ Url._normalize_site "us3.datadoghq.com" = Some "us3.datadoghq.com".
Proof.
  split; [|split; [|split; reflexivity]].
  - intros s t Hs Hc. unfold Url.normalize_twice. rewrite Hs.
    now apply UrlFacts.normalize_clean.
  - intros d s Hb Hin.
    pose proof (UrlFacts.normalize_spelling d s Hb Hin) as Hs.
    split; [exact Hs|]. unfold Url.normalize_twice. rewrite Hs.
    now apply UrlFacts.normalize_bare.
Qed.

Lemma normalize_site_idempotent_witness :
  Url.normalize_twice "  http://api.datadoghq.eu/api/v1?x=1 "
  = Url._normalize_site "  http://api.datadoghq.eu/api/v1?x=1 "
  /\ Url._normalize_site "https://api.ap1.datadoghq.com" = Some "ap1.datadoghq.com".
Proof.
  split.
  - exact (proj1 normalize_site_idempotent_on_clean
             "  http://api.datadoghq.eu/api/v1?x=1 " "datadoghq.eu" eq_refl eq_refl).
  - exact (proj1 (proj1 (proj2 normalize_site_idempotent_on_clean)
             "ap1.datadoghq.com" "https://api.ap1.datadoghq.com" eq_refl
             (or_intror (or_intror (or_intror (or_intror (or_intror (or_introl eq_refl)))))))).
Defined.

(* ===================================================================== *)
(** * Custom fields *)
(* ===================================================================== *)

Module FieldFacts.
Import PyStr.

Lemma contains_app c s t : contains c (s ++ t) = contains c s || contains c t.
Proof.
  induction s as [|a s IH]; simpl; [reflexivity|].
  now rewrite IH, orb_assoc.
Qed.

Lemma split1_join (key value : string) :
  contains "=" key = false ->
  split1 "=" (key ++ "=" ++ value) = [key; value].
Proof.
  induction key as [|a key IH]; simpl; [reflexivity|].
  intros [Ha Hk]%orb_false_elim. simpl in IH. rewrite Ha, (IH Hk). reflexivity.
Qed.

Lemma split1_contains (f : string) :
  contains "=" f = true -> exists k v, split1 "=" f = [k; v].
Proof.
  induction f as [|a f IH]; simpl; [discriminate|].
  destruct (Ascii.eqb a "=") eqn:E; simpl.
  - intros _. now exists "", f.
  - intros H. destruct (IH H) as (k & v & ->). now exists (String a k), v.
Qed.

Lemma arg_join (key value : string) :
  contains "=" key = false ->
  contains "=" (key ++ "=" ++ value) = true
  /\ arg_key (key ++ "=" ++ value) = key
  /\ arg_value (key ++ "=" ++ value) = value.
Proof.
  intros H. unfold arg_key, arg_value. rewrite (split1_join _ _ H).
  rewrite contains_app. simpl. now rewrite orb_true_r.
Qed.

(** The loop stores the record of each argument in turn. *)
Lemma parse_fields_ok (field : list string) (acc : dict) :
  List.forallb (contains "=") field = true ->
  parse_fields_from field acc
  = Ok (fold_left (fun fields f => store (arg_key f) (encode f) fields) field acc).
Proof.
  revert acc. induction field as [|f rest IH]; intros acc; simpl; [reflexivity|].
  intros [Hf Hrest]%andb_prop. rewrite Hf. simpl.
  unfold encode, arg_key, arg_value.
  destruct (split1_contains _ Hf) as (k & v & ->). now apply IH.
Qed.

(** The loop raises a usage error at the first argument without ["="]. *)
Lemma parse_fields_malformed (field : list string) (acc : dict) :
  List.forallb (contains "=") field = false ->
  exists f, In f field /\ contains "=" f = false /\
    parse_fields_from field acc
    = Raise (UsageError ("Invalid field format: " ++ f ++ ". Use key=value format.")).
Proof.
  revert acc. induction field as [|f rest IH]; intros acc; simpl; [discriminate|].
  destruct (contains "=" f) eqn:Hf; simpl.
  - intros H. destruct (split1_contains _ Hf) as (k & v & ->).
    match goal with |- context [parse_fields_from rest ?a] =>
      destruct (IH a H) as (g & Hin & Hg & ->) end.
    exists g. auto.
  - intros _. exists f. auto.
Qed.

Lemma lookup_store_same k v d : lookup k (store k v d) = Some v.
Proof.
  induction d as [|[k' v'] d IH]; simpl.
  - now rewrite String.eqb_refl.
  - destruct (String.eqb k' k) eqn:E; simpl; rewrite E; auto.
Qed.

Lemma lookup_store_other k k' v d :
  k <> k' -> lookup k (store k' v d) = lookup k d.
Proof.
  intros Hne. induction d as [|[k0 v0] d IH]; simpl.
  - destruct (String.eqb_spec k' k); [congruence | reflexivity].
  - destruct (String.eqb_spec k0 k'); simpl.
    + subst. destruct (String.eqb_spec k' k); [congruence | reflexivity].
    + now rewrite IH.
Qed.

Lemma lookup_fold_other key (post : list string) (acc : dict) :
  Forall (fun f => arg_key f <> key) post ->
  lookup key (fold_left (fun fields f => store (arg_key f) (encode f) fields) post acc)
  = lookup key acc.
Proof.
  intros H. revert acc. induction H as [|f post Hf _ IH]; intros acc; simpl.
  - reflexivity.
  - rewrite IH. apply lookup_store_other. congruence.
Qed.

(** Among well-formed arguments, the [dict] holds under [key] the record
    of the last argument with that key. *)
Lemma parse_fields_lookup (pre post : list string) (key value : string) :
  contains "=" key = false ->
  List.forallb (contains "=") pre = true ->
  List.forallb (contains "=") post = true ->
  Forall (fun f => arg_key f <> key) post ->
  exists fields,
    _parse_custom_fields (List.app pre ((key ++ "=" ++ value) :: post)) = Ok fields
    /\ lookup key fields
       = Some (record (field_type_of key) (field_value_of (field_type_of key) value)).
Proof.
  intros Hk Hpre Hpost Hlast.
  destruct (arg_join key value Hk) as (Hc & Hak & Hav).
  unfold _parse_custom_fields. rewrite parse_fields_ok.
  - eexists. split; [reflexivity|].
    rewrite fold_left_app. cbn [fold_left].
    rewrite (lookup_fold_other _ _ _ Hlast), Hak.
    rewrite lookup_store_same. unfold encode. now rewrite Hak, Hav.
  - rewrite List.forallb_app. cbn [List.forallb]. now rewrite Hpre, Hc, Hpost.
Qed.

Lemma existsb_eqb_In (key : string) (l : list string) :
  existsb (String.eqb key) l = true <-> In key l.
Proof.
  rewrite existsb_exists. split.
  - intros (x & Hx & ->%String.eqb_eq). exact Hx.
  - intros H. exists key. now rewrite String.eqb_refl.
Qed.

(** The membership table of the field types *)
Lemma field_type_table (key : string) :
  (In key ["severity"; "state"; "detection_method"] -> field_type_of key = "dropdown")
  /\ (In key ["teams"; "services"] -> field_type_of key = "autocomplete")
  /\ (In key ["trigger"; "root_cause_type"; "impact_type"] ->
      field_type_of key = "multiselect")
  /\ (~ In key ["severity"; "state"; "detection_method"; "teams"; "services";
                "trigger"; "root_cause_type"; "impact_type"] ->
      field_type_of key = "textbox").
Proof.
  repeat split.
  - intros [<-|[<-|[<-|[]]]]; reflexivity.
  - intros [<-|[<-|[]]]; reflexivity.
  - intros [<-|[<-|[<-|[]]]]; reflexivity.
  - intros Hn. unfold field_type_of.
    destruct (existsb _ ["severity"; "state"; "detection_method"]) eqn:E1.
    { apply existsb_eqb_In in E1. exfalso. apply Hn. simpl in *. tauto. }
    destruct (existsb _ ["teams"; "services"]) eqn:E2.
    { apply existsb_eqb_In in E2. exfalso. apply Hn. simpl in *. tauto. }
    destruct (existsb _ ["trigger"; "root_cause_type"; "impact_type"]) eqn:E3.
    { apply existsb_eqb_In in E3. exfalso. apply Hn. simpl in *. tauto. }
    reflexivity.
Qed.

(** The value of each field type *)
Lemma field_value_table (ty value : string) :
  (ty = "dropdown" \/ ty = "textbox" ->
     field_value_of ty value = if String.eqb value "" then JNull else JStr value)
  /\ (ty = "multiselect" ->
     field_value_of ty value = if String.eqb value "" then JNull else JArr [JStr value])
  /\ (ty = "autocomplete" -> value <> "" ->
     field_value_of ty value
     = if startswith value "[" then JStr value else JArr [JStr value])
  /\ (ty = "autocomplete" -> value = "" -> field_value_of ty value = JNull).
Proof.
  repeat split.
  - intros [->| ->]; unfold field_value_of; simpl; now destruct (String.eqb value "").
  - intros ->. unfold field_value_of. simpl. now destruct (String.eqb value "").
  - intros -> Hv. unfold field_value_of.
    destruct (String.eqb_spec value ""); [contradiction|].
    now destruct (startswith value "[").
  - intros -> ->. reflexivity.
Qed.

End FieldFacts.

(** C1: every well-formed argument [key=value] of [--field] is stored
    under [key] as [{"type": ty, "value": v}] (the last argument of a key
    is the one kept), where [ty] follows the membership table and [v] is
    the text or [null] for dropdown and textbox, [[value]] or [null] for
    multiselect, and for autocomplete with a non-empty value [[value]], or
    the text itself when it starts with ["["]; with the four examples of
    the specification. *)
Theorem custom_field_encoding :
  (forall (pre post : list string) (key value : string),
      PyStr.contains "=" key = false ->
      List.forallb (PyStr.contains "=") pre = true ->
      List.forallb (PyStr.contains "=") post = true ->
      Forall (fun f => arg_key f <> key) post ->
      exists (fields : dict) (ty : string) (v : json),
        _parse_custom_fields (List.app pre ((key ++ "=" ++ value) :: post)) = Ok fields
        /\ lookup key fields = Some (JObj [("type", JStr ty); ("value", v)])
        /\ (In key ["severity"; "state"; "detection_method"] -> ty = "dropdown")
        /\ (In key ["teams"; "services"] -> ty = "autocomplete")
        /\ (In key ["trigger"; "root_cause_type"; "impact_type"] -> ty = "multiselect")
        /\ (~ In key ["severity"; "state"; "detection_method"; "teams"; "services";
                      "trigger"; "root_cause_type"; "impact_type"] -> ty = "textbox")
        /\ (ty = "dropdown" \/ ty = "textbox" ->
            v = if String.eqb value "" then JNull else JStr value)
        /\ (ty = "multiselect" ->
            v = if String.eqb value "" then JNull else JArr [JStr value])
        /\ (ty = "autocomplete" -> value <> "" ->
            v = if PyStr.startswith value "[" then JStr value else JArr [JStr value]))
  /\ _parse_custom_fields ["severity=SEV-1"]
     = Ok [("severity", JObj [("type", JStr "dropdown"); ("value", JStr "SEV-1")])]
  /\ _parse_custom_fields ["teams=infra"]
     = Ok [("teams", JObj [("type", JStr "autocomplete"); ("value", JArr [JStr "infra"])])]
  /\ _parse_custom_fields ["trigger=outage"]
     = Ok [("trigger", JObj [("type", JStr "multiselect"); ("value", JArr [JStr "outage"])])]
  /\ _parse_custom_fields ["trigger="]
     = Ok [("trigger", JObj [("type", JStr "multiselect"); ("value", JNull)])].
Proof.
  split; [|repeat split; reflexivity].
  intros pre post key value Hk Hpre Hpost Hlast.
  destruct (FieldFacts.parse_fields_lookup pre post key value Hk Hpre Hpost Hlast)
    as (fields & Hparse & Hlook).
  exists fields, (field_type_of key), (field_value_of (field_type_of key) value).
  destruct (FieldFacts.field_type_table key) as (T1 & T2 & T3 & T4).
  destruct (FieldFacts.field_value_table (field_type_of key) value) as (V1 & V2 & V3 & _).
  repeat split; assumption.
Qed.

Lemma custom_field_encoding_witness :
  exists (fields : dict) (ty : string) (v : json),
    _parse_custom_fields ["teams=infra"; "teams=[core]"; "note=a=b"] = Ok fields
    /\ lookup "teams" fields = Some (JObj [("type", JStr ty); ("value", v)])
    /\ ty = "autocomplete" /\ v = JStr "[core]".
Proof.
  assert (Hlast : Forall (fun f => arg_key f <> "teams") ["note=a=b"])
    by (repeat constructor; vm_compute; discriminate).
  destruct (proj1 custom_field_encoding ["teams=infra"] ["note=a=b"] "teams" "[core]"
              eq_refl eq_refl eq_refl Hlast)
    as (fields & ty & v & Hp & Hl & _ & Ht & _ & _ & _ & _ & Hv).
  exists fields, ty, v. repeat split; try assumption.
  - apply Ht. simpl. auto.
  - apply Hv; [apply Ht; simpl; auto | discriminate].
Defined.

(** C9: a field of type autocomplete ([teams] or [services]) given with an
    empty value is stored as [{"type": "autocomplete", "value": null}]. *)
Theorem autocomplete_empty_value_is_null :
  forall (pre post : list string) (key : string),
    In key ["teams"; "services"] ->
    List.forallb (PyStr.contains "=") pre = true ->
    List.forallb (PyStr.contains "=") post = true ->
    Forall (fun f => arg_key f <> key) post ->
    exists fields : dict,
      _parse_custom_fields (List.app pre ((key ++ "=") :: post)) = Ok fields
      /\ lookup key fields
         = Some (JObj [("type", JStr "autocomplete"); ("value", JNull)]).
Proof.
  intros pre post key Hin Hpre Hpost Hlast.
  assert (Hk : PyStr.contains "=" key = false)
    by (destruct Hin as [<-|[<-|[]]]; reflexivity).
  destruct (FieldFacts.parse_fields_lookup pre post key "" Hk Hpre Hpost Hlast)
    as (fields & Hparse & Hlook).
  exists fields. split; [exact Hparse|].
  rewrite Hlook. destruct Hin as [<-|[<-|[]]]; reflexivity.
Qed.

Lemma autocomplete_empty_value_witness :
  exists fields : dict,
    _parse_custom_fields ["severity=SEV-2"; "teams="] = Ok fields
    /\ lookup "teams" fields
       = Some (JObj [("type", JStr "autocomplete"); ("value", JNull)]).
Proof.
  exact (autocomplete_empty_value_is_null ["severity=SEV-2"] [] "teams"
           (or_introl eq_refl) eq_refl eq_refl (Forall_nil _)).
Defined.

(* ===================================================================== *)
(** * The request operation *)
(* ===================================================================== *)

Section RequestFacts.

Variable repr : json -> string.
Variable remote : list event -> request -> transport.

Lemma error_status_not_success (r : response) :
  (400 <= status_code r < 600)%Z -> is_success r = false.
Proof.
  intros H. unfold is_success. apply andb_false_iff. right.
  apply Z.leb_gt. lia.
Qed.

(** A response outside 2xx makes [_request] raise the error of
    [status_error], after one exchange. *)
Lemma request_status_error dd method path params json_body w r :
  remote (events w) (request_of dd method path params json_body) = Response r ->
  is_success r = false ->
  _request repr remote dd method path params json_body w
  = (Raise (status_error repr r),
     log (Sent (request_of dd method path params json_body) (Response r)) w).
Proof.
  intros Hr Hs. unfold _request, bind, send. fold (request_of dd method path params json_body).
  rewrite Hr, Hs. reflexivity.
Qed.

End RequestFacts.

(** C3 (as stated, refuted): a 404 whose body is the object with an empty
    [errors] list raises the generic message, where joining the elements
    of the list would give the empty text. *)
Lemma api_error_empty_errors_list :
  let body := "{" ++ Sample.q ++ "errors" ++ Sample.q ++ ": []}" in
  let j := JObj [("errors", JArr [])] in
  fst (_request Sample.render (Sample.script [Sample.answer 404 body j])
         (mkClient "https://api.us3.datadoghq.com" []) "GET" "/api/v2/incidents/1"
         None None start)
  = Raise (DatadogAPIError 404 "Datadog API error" body)
  /\ PyStr.join "; " (map (py_str Sample.render) []) = "".
Proof. split; reflexivity. Qed.

(** C3 (amended): for every response with a 4xx/5xx status whose body
    parses as a JSON object with a non-empty [errors] list, [_request]
    raises the API error whose message is the [str] of the elements joined
    with ["; "] (["a; b"] for the list of ["a"] and ["b"]), and whose status
    and body are those of the response; with an empty list the message is
    ["Datadog API error"]. *)
Theorem api_error_joins_errors :
  forall (repr : json -> string) (remote : list event -> request -> transport)
         (dd : DatadogClient) (method path : string) (params : option dict)
         (json_body : option json) (w : world) (r : response)
         (payload : dict) (errs : list json),
    remote (events w) (request_of dd method path params json_body) = Response r ->
    (400 <= status_code r < 600)%Z ->
    json_ r = Parsed (JObj payload) ->
    lookup "errors" payload = Some (JArr errs) ->
    fst (_request repr remote dd method path params json_body w)
    = Raise (DatadogAPIError (status_code r)
               (match errs with
                | [] => "Datadog API error"
                | _ => PyStr.join "; " (map (py_str repr) errs)
                end)
               (text r))
    /\ (errs = [JStr "a"; JStr "b"] ->
        fst (_request repr remote dd method path params json_body w)
        = Raise (DatadogAPIError (status_code r) "a; b" (text r))).
Proof.
  intros repr remote dd method path params json_body w r payload errs Hr Hst Hj He.
  rewrite (request_status_error repr remote dd method path params json_body w r Hr
             (error_status_not_success r Hst)).
  unfold status_error. rewrite Hj, He. simpl.
  split; [now destruct errs | intros ->; reflexivity].
Qed.

Lemma api_error_joins_errors_witness :
  let q := Sample.q in
  let body := "{" ++ q ++ "errors" ++ q ++ ": ["
              ++ q ++ "a" ++ q ++ ", " ++ q ++ "b" ++ q ++ "]}" in
  fst (_request Sample.render
         (Sample.script [Sample.answer 403 body
                           (JObj [("errors", JArr [JStr "a"; JStr "b"])])])
         (mkClient "https://api.us3.datadoghq.com" []) "GET" "/api/v2/incidents/1"
         None None start)
  = Raise (DatadogAPIError 403 "a; b" body).
Proof.
  refine (proj1 (api_error_joins_errors Sample.render
            (Sample.script [Sample.answer 403 _
                              (JObj [("errors", JArr [JStr "a"; JStr "b"])])])
            (mkClient "https://api.us3.datadoghq.com" []) "GET" "/api/v2/incidents/1"
            None None start _ _ _ eq_refl _ eq_refl eq_refl)).
  simpl. lia.
Defined.

(** C4: for every response with a 4xx/5xx status whose body is not valid
    JSON, [_request] raises the API error with the message
    ["Datadog API error"], the status of the response and its body text
    unchanged. *)
Theorem api_error_invalid_json :
  forall (repr : json -> string) (remote : list event -> request -> transport)
         (dd : DatadogClient) (method path : string) (params : option dict)
         (json_body : option json) (w : world) (r : response) (m : string),
    remote (events w) (request_of dd method path params json_body) = Response r ->
    (400 <= status_code r < 600)%Z ->
    json_ r = JSONDecodeError m ->
    _request repr remote dd method path params json_body w
    = (Raise (DatadogAPIError (status_code r) "Datadog API error" (text r)),
       log (Sent (request_of dd method path params json_body) (Response r)) w).
Proof.
  intros repr remote dd method path params json_body w r m Hr Hst Hj.
  rewrite (request_status_error repr remote dd method path params json_body w r Hr
             (error_status_not_success r Hst)).
  unfold status_error. now rewrite Hj.
Qed.

Lemma api_error_invalid_json_witness :
  fst (_request Sample.render
         (Sample.script [Response (mkResponse 502 "<html>Bad Gateway</html>"
                                     (JSONDecodeError "Expecting value"))])
         (mkClient "https://api.us3.datadoghq.com" []) "GET" "/api/v1/validate"
         None None start)
  = Raise (DatadogAPIError 502 "Datadog API error" "<html>Bad Gateway</html>").
Proof.
  refine (f_equal fst
            (api_error_invalid_json Sample.render
               (Sample.script [Response (mkResponse 502 "<html>Bad Gateway</html>"
                                           (JSONDecodeError "Expecting value"))])
               (mkClient "https://api.us3.datadoghq.com" []) "GET" "/api/v1/validate"
               None None start _ "Expecting value" eq_refl _ eq_refl)).
  simpl. lia.
Defined.

(* ===================================================================== *)
(** * update-incident and validate *)
(* ===================================================================== *)

Lemma forallb_exists_false {A} (f : A -> bool) (l : list A) (x : A) :
  In x l -> f x = false -> List.forallb f l = false.
Proof.
  intros Hin Hx. destruct (List.forallb f l) eqn:E; [|reflexivity].
  rewrite forallb_forall in E. rewrite (E x Hin) in Hx. discriminate Hx.
Qed.

(** C7: [update-incident] with no attribute option and no [--field], and
    [update-incident] with a [--field] argument that has no ["="], both
    raise a usage error and leave the world as it was: no client was
    constructed and no request was sent. *)
Theorem update_incident_usage_error :
  forall (repr dumps : json -> string) (getenv : string -> option string)
         (remote : list event -> request -> transport)
         (incident_id site : string) (o : update_options) (w : world),
    (title o = None /\ severity o = None /\ state o = None
     /\ customer_impacted o = None /\ customer_impact_scope o = None
     /\ field o = [])
    \/ (exists f, In f (field o) /\ PyStr.contains "=" f = false) ->
    exists msg,
      update_incident_cmd repr dumps getenv remote incident_id site o w
      = (Raise (UsageError msg), w).
Proof.
  intros repr dumps getenv remote incident_id site o w
    [(Ht & Hs & Hst & Hc & Hcs & Hf) | (f & Hin & Hf)].
  - eexists. unfold update_incident_cmd, _build_update_attributes, bind, lift.
    rewrite Ht, Hs, Hst, Hc, Hcs, Hf. reflexivity.
  - destruct (FieldFacts.parse_fields_malformed (field o) []
                (forallb_exists_false _ _ f Hin Hf)) as (g & _ & _ & Hg).
    eexists. unfold update_incident_cmd, _build_update_attributes, bind, lift.
    unfold _parse_custom_fields. destruct (field o) as [|f0 rest] eqn:Efield.
    + destruct Hin.
    + rewrite Hg. reflexivity.
Qed.

Lemma update_incident_usage_error_witness :
  (exists msg,
      update_incident_cmd Sample.render Sample.render (Sample.environ Sample.keys)
        (Sample.script []) "42" "us3.datadoghq.com"
        (mkUpdate None None None None None []) start
      = (Raise (UsageError msg), start))
  /\ (exists msg,
      update_incident_cmd Sample.render Sample.render (Sample.environ Sample.keys)
        (Sample.script []) "42" "us3.datadoghq.com"
        (mkUpdate (Some "t") None None None None ["teams=infra"; "malformed"]) start
      = (Raise (UsageError msg), start)).
Proof.
  split.
  - apply update_incident_usage_error. left. repeat split.
  - apply update_incident_usage_error. right. exists "malformed".
    split; [right; left; reflexivity | reflexivity].
Defined.

Section ValidateFacts.

Variable repr dumps : json -> string.
Variable getenv : string -> option string.
Variable remote : list event -> request -> transport.


End ValidateFacts.


(* ===================================================================== *)
(** * search-logs *)
(* ===================================================================== *)

Section SearchFacts.

Variable repr dumps : json -> string.
Variable getenv : string -> option string.
Variable remote : list event -> request -> transport.

(** One call of [search_logs]: one exchange, then the value or the error
    of [_request]. *)
Lemma search_logs_step dd a cursor w :
  let tr := remote (events w) (search_request dd a cursor) in
  search_logs repr remote dd a cursor w
  = (match tr with
     | Response r =>
         if is_success r then
           match json_ r with
           | Parsed j => Ok j
           | JSONDecodeError m => Raise (RuntimeError ("Invalid JSON response: " ++ m))
           end
         else Raise (status_error repr r)
     | RequestError m => Raise (RuntimeError ("Network error: " ++ m))
     end,
     log (Sent (search_request dd a cursor) tr) w).
Proof.
  unfold search_logs, _request, bind, send, search_request, request_of. cbn zeta.
  destruct (remote _ _) as [r|m]; [|reflexivity].
  destruct (is_success r); [|reflexivity]. now destruct (json_ r).
Qed.






End SearchFacts.

(** A run of three pages: the cursors ["c1"] and ["c2"] are followed, the
    page without [meta] ends the run, and the fourth answer is never
    asked for. *)
Example search_logs_three_pages :
  let page logs meta := Sample.answer 200 "{}" (JObj (("data", JArr logs) :: meta)) in
  let after c := [("meta", JObj [("page", JObj [("after", JStr c)])])] in
  let run := search_logs_cmd Sample.render Sample.render (Sample.environ Sample.keys)
               (Sample.script [page [JInt 1; JInt 2] (after "c1"); page [JInt 3] (after "c2");
                               page [JInt 4] []; page [JInt 5] []])
               "error" "us3.datadoghq.com" "now-15m" "now" 100 None true start in
  fst run = Ok tt
  /\ map (fun x => match json_body (fst x) with
                   | Some body =>
                       match get body "page" JNull with
                       | Ok page => get page "cursor" JNull
                       | Raise e => Raise e
                       end
                   | None => Ok JNull
                   end) (exchanges (snd run))
     = [Ok JNull; Ok (JStr "c1"); Ok (JStr "c2")]
  /\ entries (map (fun x => (JNull, snd x)) (exchanges (snd run)))
     = [JInt 1; JInt 2; JInt 3; JInt 4].
Proof. vm_compute. repeat split; reflexivity. Qed.




(* ===================================================================== *)
(** * get-incident and its enrichment *)
(* ===================================================================== *)

Section EnrichFacts.

Variable repr dumps : json -> string.
Variable getenv : string -> option string.
Variable remote : list event -> request -> transport.

Lemma request_step dd method path params json_body w :
  _request repr remote dd method path params json_body w
  = (outcome_of repr (remote (events w) (request_of dd method path params json_body)),
     log (Sent (request_of dd method path params json_body)
            (remote (events w) (request_of dd method path params json_body))) w).
Proof.
  unfold _request, bind, send, outcome_of. fold (request_of dd method path params json_body).
  destruct (remote _ _) as [r|m]; [|reflexivity].
  destruct (is_success r); [|reflexivity]. now destruct (json_ r).
Qed.







Lemma enrich_body_eq dd w d :
  incident w = JObj d ->
  enrich_body repr remote dd w
  = match type_uuid d with
    | Raise e => (Raise e, w)
    | Ok uuid =>
        bind (if truthy uuid then type_block repr remote dd uuid else ret tt)
             (fun _ => integrations_block repr remote dd) w
    end.
Proof.
  intros Hd. unfold enrich_body, type_uuid. unfold bind at 1 2 3 4.
  unfold get_data, lift. rewrite Hd.
  destruct (get (JObj d) "data" (JObj [])) as [x|e]; [|reflexivity].
  destruct (get x "attributes" (JObj [])) as [at_|e]; [|reflexivity].
  destruct (get at_ "incident_type_uuid" JNull) as [uuid|e]; reflexivity.
Qed.




End EnrichFacts.

Section GetIncidentFacts.

Variable repr dumps : json -> string.
Variable getenv : string -> option string.
Variable remote : list event -> request -> transport.

Lemma get_client_ok site host api_key app_key w :
  getenv "DD_API_KEY" = Some api_key -> api_key <> "" ->
  getenv "DD_APP_KEY" = Some app_key -> app_key <> "" ->
  Url._normalize_site site = Some host ->
  _get_client getenv site w
  = (Ok (mkClient ("https://api." ++ host) (headers_of api_key app_key)),
     log (Opened ("https://api." ++ host) (headers_of api_key app_key)) w).
Proof.
  intros Ha Hane Hp Hpne Hs.
  apply String.eqb_neq in Hane, Hpne.
  unfold _get_client, env, absent. rewrite Ha, Hp, Hane, Hpne. cbn [orb].
  rewrite Hane, Hpne. cbn [orb].
  unfold new_client, Url._api_host. rewrite Hs. reflexivity.
Qed.


End GetIncidentFacts.




(* ===================================================================== *)
(** * Further properties: the site *)
(* ===================================================================== *)

Module SiteFacts.
Import PyStr Url.

Lemma lstrip_space_app (pre s : string) :
  all_space pre = true -> lstrip (pre ++ s) = lstrip s.
Proof.
  unfold all_space. induction pre as [|c pre IH]; simpl; [reflexivity|].
  intros [Hc Hp]%andb_prop. rewrite Hc. auto.
Qed.

Lemma rstrip_space (post : string) : all_space post = true -> rstrip post = "".
Proof.
  unfold all_space. induction post as [|c post IH]; simpl; [reflexivity|].
  intros [Hc Hp]%andb_prop. now rewrite (IH Hp), Hc.
Qed.

Lemma rstrip_app_space (s post : string) :
  all_space post = true -> rstrip (s ++ post) = rstrip s.
Proof.
  intros Hp. induction s as [|c s IH]; simpl.
  - now apply rstrip_space.
  - now rewrite IH.
Qed.

Lemma strip_app_space (s post : string) :
  all_space post = true -> strip (s ++ post) = strip s.
Proof.
  intros Hp. unfold strip. induction s as [|c s IH]; cbn [append lstrip].
  - assert (H : lstrip post = "").
    { unfold all_space in Hp.
      induction post as [|a post IHp]; simpl; [reflexivity|].
      simpl in Hp. apply andb_prop in Hp as [Ha Hq]. rewrite Ha. auto. }
    now rewrite H.
  - destruct (isspace c); [exact IH|].
    change (String c (s ++ post)) with (String c s ++ post).
    now apply rstrip_app_space.
Qed.

Lemma strip_surrounding (pre s post : string) :
  all_space pre = true -> all_space post = true ->
  strip (pre ++ s ++ post) = strip s.
Proof.
  intros Hpre Hpost. unfold strip. rewrite (lstrip_space_app _ _ Hpre).
  now apply strip_app_space.
Qed.

End SiteFacts.

(** X1: white space around the site does not matter: the site with any
    white space before and after it normalises as the site itself. *)
Theorem normalize_site_ignores_surrounding_space :
  forall pre s post : string,
    all_space pre = true -> all_space post = true ->
    Url._normalize_site (pre ++ s ++ post) = Url._normalize_site s.
Proof.
  intros pre s post Hpre Hpost. unfold Url._normalize_site.
  now rewrite (SiteFacts.strip_surrounding pre s post Hpre Hpost).
Qed.

Lemma normalize_site_ignores_space_witness :
  Url._normalize_site ("  " ++ "https://api.datadoghq.eu" ++ " ")
  = Url._normalize_site "https://api.datadoghq.eu".
Proof.
  exact (normalize_site_ignores_surrounding_space "  " "https://api.datadoghq.eu" " "
           eq_refl eq_refl).
Defined.

(** X2: every foreseen spelling of a bare domain [d] (with or without a
    scheme, with or without ["api."]) gives the same base URL
    ["https://api." ++ d]: the prefix is never doubled. *)
Theorem api_host_of_spellings :
  forall d s : string,
    Url.bare_domain d = true -> In s (Url.spellings d) ->
    Url._api_host s = Some ("https://api." ++ d).
Proof.
  intros d s Hd Hs. unfold Url._api_host.
  now rewrite (UrlFacts.normalize_spelling d s Hd Hs).
Qed.

Lemma api_host_of_spellings_witness :
  Url._api_host "https://api.us5.datadoghq.com" = Some "https://api.us5.datadoghq.com".
Proof.
  refine (api_host_of_spellings "us5.datadoghq.com" "https://api.us5.datadoghq.com"
            eq_refl _).
  right; right; right; right; right; left; reflexivity.
Defined.

(* ===================================================================== *)
(** * Further properties: custom fields and attributes *)
(* ===================================================================== *)

Module DictFacts.

Lemma keys_store (k : string) (v : json) (d : dict) (k' : string) :
  In k' (keys_of (store k v d)) <-> k' = k \/ In k' (keys_of d).
Proof.
  unfold keys_of. induction d as [|[k0 v0] d IH]; simpl.
  - split; [intros [<-|[]]; auto | intros [->|[]]; auto].
  - destruct (String.eqb_spec k0 k) as [->|Hne]; simpl.
    + intuition (subst; auto).
    + rewrite IH. intuition (subst; auto).
Qed.

Lemma nodup_store (k : string) (v : json) (d : dict) :
  NoDup (keys_of d) -> NoDup (keys_of (store k v d)).
Proof.
  unfold keys_of. induction d as [|[k0 v0] d IH]; simpl; intros Hnd.
  - constructor; [intros [] | constructor].
  - inversion Hnd as [|? ? Hnotin Hrest]; subst.
    destruct (String.eqb_spec k0 k) as [->|Hne]; simpl.
    + now constructor.
    + constructor; [|now apply IH].
      intros Hin. apply (keys_store k v d k0) in Hin. destruct Hin as [->|Hin]; auto.
Qed.

Lemma store_nonempty (k : string) (v : json) (d : dict) : store k v d <> [].
Proof. destruct d as [|[k0 v0] d]; simpl; [|destruct (String.eqb k0 k)]; discriminate. Qed.

Lemma store_absent (k : string) (v : json) (d : dict) :
  lookup k d = None -> store k v d = (d ++ [(k, v)])%list.
Proof.
  induction d as [|[k0 v0] d IH]; simpl; [reflexivity|].
  destruct (String.eqb k0 k); [discriminate|]. intros H. now rewrite IH.
Qed.

End DictFacts.

Module FieldMore.
Import PyStr.

Lemma fold_keys (field : list string) (acc : dict) :
  NoDup (keys_of acc) ->
  NoDup (keys_of (fold_left (fun fields f => store (arg_key f) (encode f) fields) field acc))
  /\ (forall k,
      In k (keys_of (fold_left (fun fields f => store (arg_key f) (encode f) fields)
                       field acc))
      <-> In k (keys_of acc) \/ exists f, In f field /\ arg_key f = k).
Proof.
  revert acc. induction field as [|f rest IH]; intros acc Hnd; simpl.
  - split; [exact Hnd|]. intros k. split; [auto|]. intros [H|(f & [] & _)]. exact H.
  - destruct (IH (store (arg_key f) (encode f) acc)
                (DictFacts.nodup_store _ _ _ Hnd)) as [Hnd' Hkeys].
    split; [exact Hnd'|]. intros k. rewrite Hkeys, DictFacts.keys_store. split.
    + intros [[->|H]|(g & Hg & Hk)]; eauto.
    + intros [H|(g & [<-|Hg] & Hk)]; eauto.
Qed.

Lemma fold_nonempty (field : list string) (acc : dict) :
  acc <> [] ->
  fold_left (fun fields f => store (arg_key f) (encode f) fields) field acc <> [].
Proof.
  revert acc. induction field as [|f rest IH]; intros acc Hne; simpl; [exact Hne|].
  apply IH. apply DictFacts.store_nonempty.
Qed.

(** A run of the loop that returns has seen only well-formed arguments. *)
Lemma parse_ok_wellformed (field : list string) (acc fields : dict) :
  parse_fields_from field acc = Ok fields ->
  List.forallb (contains "=") field = true.
Proof.
  intros H. destruct (List.forallb (contains "=") field) eqn:E; [reflexivity|].
  destruct (FieldFacts.parse_fields_malformed field acc E) as (f & _ & _ & Hf).
  rewrite Hf in H. discriminate H.
Qed.

Lemma parse_nonempty (f : string) (rest : list string) (fields : dict) :
  _parse_custom_fields (f :: rest) = Ok fields -> fields <> [].
Proof.
  intros H. pose proof (parse_ok_wellformed _ _ _ H) as Hw.
  unfold _parse_custom_fields in H. rewrite (FieldFacts.parse_fields_ok _ _ Hw) in H.
  injection H as <-. cbn [fold_left]. apply fold_nonempty.
  apply (DictFacts.store_nonempty (arg_key f) (encode f) []).
Qed.

End FieldMore.

(** X3: the fields that [_parse_custom_fields] returns have each key once,
    and their keys are the keys of the arguments. *)
Theorem parse_custom_fields_keys :
  forall (field : list string) (fields : dict),
    _parse_custom_fields field = Ok fields ->
    NoDup (keys_of fields)
    /\ (forall k, In k (keys_of fields) <-> exists f, In f field /\ arg_key f = k).
Proof.
  intros field fields H.
  pose proof (FieldMore.parse_ok_wellformed _ _ _ H) as Hw.
  unfold _parse_custom_fields in H. rewrite (FieldFacts.parse_fields_ok _ _ Hw) in H.
  injection H as <-.
  destruct (FieldMore.fold_keys field [] (NoDup_nil _)) as [Hnd Hkeys].
  split; [exact Hnd|]. intros k. rewrite Hkeys. split; [intros [[]|H]; exact H | auto].
Qed.

Lemma parse_custom_fields_keys_witness :
  NoDup (keys_of [("teams", JObj [("type", JStr "autocomplete"); ("value", JStr "[b]")]);
                  ("note", JObj [("type", JStr "textbox"); ("value", JStr "x")])]).
Proof.
  exact (proj1 (parse_custom_fields_keys ["teams=a"; "note=x"; "teams=[b]"] _ eq_refl)).
Defined.

(** X4: [_parse_custom_fields] raises nothing but the usage error, and the
    error names the first argument without ["="]; the arguments after it
    play no part. *)
Theorem parse_custom_fields_first_malformed :
  (forall (pre post : list string) (f : string),
      List.forallb (PyStr.contains "=") pre = true ->
      PyStr.contains "=" f = false ->
      _parse_custom_fields (List.app pre (f :: post))
      = Raise (UsageError ("Invalid field format: " ++ f ++ ". Use key=value format.")))
  /\ (forall (field : list string) (e : exn),
      _parse_custom_fields field = Raise e ->
      exists f, In f field /\ PyStr.contains "=" f = false
                /\ e = UsageError ("Invalid field format: " ++ f ++ ". Use key=value format.")).
Proof.
  split.
  - intros pre post f Hpre Hf. unfold _parse_custom_fields. generalize (@nil (string * json)).
    induction pre as [|g pre IH]; intros acc; simpl.
    + now rewrite Hf.
    + simpl in Hpre. apply andb_prop in Hpre as [Hg Hpre]. rewrite Hg. simpl.
      destruct (FieldFacts.split1_contains _ Hg) as (k & v & ->). now apply IH.
  - intros field e H. unfold _parse_custom_fields in H.
    destruct (List.forallb (PyStr.contains "=") field) eqn:E.
    + rewrite (FieldFacts.parse_fields_ok _ _ E) in H. discriminate H.
    + destruct (FieldFacts.parse_fields_malformed field [] E) as (f & Hin & Hf & Hr).
      rewrite Hr in H. injection H as <-. eauto.
Qed.

Lemma parse_custom_fields_first_malformed_witness :
  _parse_custom_fields ["teams=a"; "oops"; "also bad"; "x=1"]
  = Raise (UsageError "Invalid field format: oops. Use key=value format.").
Proof.
  exact (proj1 parse_custom_fields_first_malformed ["teams=a"] ["also bad"; "x=1"] "oops"
           eq_refl eq_refl).
Defined.

(** X5: the attributes that [_build_update_attributes] returns hold a
    member for each option that was given, an empty text included, and
    [fields] when there are [--field] arguments; they are empty exactly
    when no option and no argument was given. *)
Theorem build_update_attributes_members :
  forall (o : update_options) (attrs : dict),
    _build_update_attributes o = Ok attrs ->
    lookup "title" attrs = option_map JStr (title o)
    /\ lookup "severity" attrs = option_map JStr (severity o)
    /\ lookup "state" attrs = option_map JStr (state o)
    /\ lookup "customer_impacted" attrs = option_map JBool (customer_impacted o)
    /\ lookup "customer_impact_scope" attrs = option_map JStr (customer_impact_scope o)
    /\ lookup "fields" attrs
       = match field o with
         | [] => None
         | fs => match _parse_custom_fields fs with
                 | Ok fields => Some (JObj fields)
                 | Raise _ => None
                 end
         end
    /\ (attrs = [] <->
        title o = None /\ severity o = None /\ state o = None
        /\ customer_impacted o = None /\ customer_impact_scope o = None
        /\ field o = []).
Proof.
  intros [t sv st ci cs fs] attrs. unfold _build_update_attributes.
  cbn [title severity state customer_impacted customer_impact_scope field].
  destruct fs as [|f rest].
  - intros [= <-].
    destruct t, sv, st, ci, cs; cbn;
      repeat split; try reflexivity; try discriminate;
      try (intros (? & ? & ? & ? & ? & ?); discriminate).
  - destruct (_parse_custom_fields (f :: rest)) as [fields|e] eqn:Hp; [|discriminate].
    pose proof (FieldMore.parse_nonempty f rest fields Hp) as Hne.
    destruct fields as [|kv fields]; [contradiction|].
    intros [= <-].
    destruct t, sv, st, ci, cs; cbn;
      repeat split; try reflexivity; try discriminate;
      try (intros (? & ? & ? & ? & ? & ?); discriminate).
Qed.

Lemma build_update_attributes_members_witness :
  exists attrs,
    _build_update_attributes (mkUpdate (Some "") None (Some "resolved") None None ["teams=a"])
    = Ok attrs
    /\ lookup "title" attrs = Some (JStr "")
    /\ lookup "severity" attrs = None
    /\ lookup "fields" attrs
       = Some (JObj [("teams", JObj [("type", JStr "autocomplete");
                                     ("value", JArr [JStr "a"])])]).
Proof.
  eexists. split; [reflexivity|].
  destruct (build_update_attributes_members
              (mkUpdate (Some "") None (Some "resolved") None None ["teams=a"]) _ eq_refl)
    as (Ht & Hs & _ & _ & _ & Hf & _).
  split; [exact Ht|]. split; [exact Hs | exact Hf].
Defined.

(* ===================================================================== *)
(** * Further properties: the request operation *)
(* ===================================================================== *)

Section RequestMore.

Variable repr : json -> string.
Variable remote : list event -> request -> transport.


End RequestMore.

(* ===================================================================== *)
(** * Further properties: sessions *)
(* ===================================================================== *)

Section SendsFacts.

Context {A B : Type}.
Variable dd : DatadogClient.

Lemma sends_weaken (n n' : nat) (m : M A) : n <= n' -> sends dd n m -> sends dd n' m.
Proof.
  intros Hle Hm w. destruct (Hm w) as (s & He & Hl & Hf).
  exists s. repeat split; auto. lia.
Qed.

Lemma sends_pure (m : M A) : (forall w, snd (m w) = w) -> sends dd 0 m.
Proof.
  intros H w. exists []. rewrite H, app_nil_r. repeat split; auto.
Qed.

Lemma sends_same_events (m : M A) :
  (forall w, events (snd (m w)) = events w) -> sends dd 0 m.
Proof.
  intros H w. exists []. rewrite H, app_nil_r. repeat split; auto.
Qed.

Lemma sends_bind (n1 n2 : nat) (m : M A) (k : A -> M B) :
  sends dd n1 m -> (forall a, sends dd n2 (k a)) -> sends dd (n1 + n2) (bind m k).
Proof.
  intros Hm Hk w. unfold bind. destruct (Hm w) as (s1 & He1 & Hl1 & Hf1).
  destruct (m w) as [[a|e] w1]; cbn [snd] in He1.
  - destruct (Hk a w1) as (s2 & He2 & Hl2 & Hf2).
    exists (s1 ++ s2)%list. rewrite He2, He1, app_assoc, length_app.
    repeat split; [lia | now apply Forall_app].
  - exists s1. cbn [snd]. repeat split; auto. lia.
Qed.

Lemma sends_try (n1 n2 : nat) (m : M A) (h : exn -> option (M A)) :
  sends dd n1 m -> (forall e k, h e = Some k -> sends dd n2 k) ->
  sends dd (n1 + n2) (try_except m h).
Proof.
  intros Hm Hh w. unfold try_except. destruct (Hm w) as (s1 & He1 & Hl1 & Hf1).
  destruct (m w) as [[a|e] w1]; cbn [snd] in He1.
  - exists s1. cbn [snd]. repeat split; auto. lia.
  - destruct (h e) as [k|] eqn:Ek.
    + destruct (Hh e k Ek w1) as (s2 & He2 & Hl2 & Hf2).
      exists (s1 ++ s2)%list. rewrite He2, He1, app_assoc, length_app.
      repeat split; [lia | now apply Forall_app].
    + exists s1. cbn [snd]. repeat split; auto. lia.
Qed.

End SendsFacts.

Section SessionFacts.

Variable repr dumps : json -> string.
Variable getenv : string -> option string.
Variable remote : list event -> request -> transport.

Lemma sends_request dd method path params json_body :
  sends dd 1 (_request repr remote dd method path params json_body).
Proof.
  intros w. rewrite (request_step repr remote dd method path params json_body w).
  eexists [_]. cbn [snd log events]. split; [reflexivity|]. split; [cbn; lia|].
  constructor; [|constructor]. eexists _, _. split; [reflexivity|]. split; reflexivity.
Qed.

Lemma sends_lift {A} dd (r : result A) : sends dd 0 (lift r).
Proof. now apply sends_pure. Qed.

Lemma sends_ret {A} dd (a : A) : sends dd 0 (ret a).
Proof. now apply sends_pure. Qed.

Lemma sends_enrich_with dd k x : sends dd 0 (enrich_with k x).
Proof.
  apply sends_same_events. intros w. unfold enrich_with, bind, get_data, lift, set_data.
  now destruct (setdefault_setitem (incident w) "enrichment" k x).
Qed.

Lemma sends_pass_api_error dd e k : pass_api_error e = Some k -> sends dd 0 k.
Proof. destruct e; try discriminate. intros [= <-]. apply sends_ret. Qed.

(** The enrichment makes at most two exchanges. *)
Lemma sends_enrich_incident dd : sends dd 2 (_enrich_incident repr remote dd).
Proof.
  unfold _enrich_incident. apply (sends_try dd 2 0).
  2:{ intros e k [= <-]. apply sends_enrich_with. }
  unfold enrich_body.
  apply (sends_bind dd 0 2); [now apply sends_pure|]. intros data.
  apply (sends_bind dd 0 2); [apply sends_lift|]. intros d.
  apply (sends_bind dd 0 2); [apply sends_lift|]. intros attrs.
  apply (sends_bind dd 0 2); [apply sends_lift|]. intros uuid.
  apply (sends_bind dd 1 1).
  - destruct (truthy uuid).
    + apply (sends_try dd 1 0); [|apply sends_pass_api_error].
      apply (sends_bind dd 1 0); [apply sends_request|]. intros j. apply sends_enrich_with.
    + apply (sends_weaken dd 0 1); [lia | apply sends_ret].
  - intros _. apply (sends_try dd 1 0); [|apply sends_pass_api_error].
    apply (sends_bind dd 0 1); [now apply sends_pure|]. intros data'.
    apply (sends_bind dd 0 1); [apply sends_lift|]. intros d'.
    apply (sends_bind dd 0 1); [apply sends_lift|]. intros id.
    destruct (truthy id).
    + apply (sends_bind dd 1 0); [apply sends_request|]. intros j. apply sends_enrich_with.
    + apply (sends_weaken dd 0 1); [lia | apply sends_ret].
Qed.

(** The loop of [n] rounds makes at most [n] exchanges. *)
Lemma sends_search_loop dd a n :
  forall cursor acc, sends dd n (search_loop repr remote dd a n cursor acc).
Proof.
  induction n as [|n IH]; intros cursor acc.
  - apply sends_ret.
  - cbn [search_loop]. apply (sends_bind dd 1 n); [apply sends_request|]. intros data.
    apply (sends_bind dd 0 n); [apply sends_lift|]. intros logs.
    apply (sends_bind dd 0 n); [apply sends_lift|]. intros c.
    destruct (negb (truthy c)); [|apply IH].
    apply (sends_weaken dd 0 n); [lia | apply sends_ret].
Qed.

(** A [try] around a [with] block, ended by the two clauses of the
    commands *)
Lemma session_run {C A} (mk : M C) (body : C -> M A) (w : world) :
  try_except (with_ mk body) (cli_handlers dumps) w
  = match mk w with
    | (Raise e, w1) => (Raise (at_boundary dumps e), w1)
    | (Ok c, w1) =>
        match body c w1 with
        | (Ok a, w2) => (Ok a, log Closed w2)
        | (Raise e, w2) => (Raise (at_boundary dumps e), log Closed w2)
        end
    end.
Proof.
  unfold try_except, with_. destruct (mk w) as [[c|e] w1].
  - destruct (body c w1) as [[a|e] w2]; [reflexivity|]. now destruct e.
  - now destruct e.
Qed.

(** A command made of a client, a body that only sends, and a printing
    end keeps the discipline of a session. *)
Lemma command_session {A} (n : nat) (mk : M DatadogClient)
    (body : DatadogClient -> M A) (finish : A -> M unit) :
  (forall w, (exists e, mk w = (Raise e, w))
             \/ exists dd, mk w = (Ok dd, log (Opened (client_url dd) (client_headers dd)) w)) ->
  (forall dd, sends dd n (body dd)) ->
  (forall a w, (exists out, finish a w = (Ok tt, log (Echo out) w))
               \/ (exists e, finish a w = (Raise e, w))) ->
  forall w,
    let run := bind (try_except (with_ mk body) (cli_handlers dumps)) finish w in
    exists added,
      events (snd run) = (events w ++ added)%list /\ session n (fst run) added.
Proof.
  intros Hmk Hbody Hfinish w run. subst run. unfold bind. rewrite session_run.
  destruct (Hmk w) as [(e & ->) | (dd & ->)].
  - exists []. rewrite app_nil_r. split; [reflexivity|]. left. split; [reflexivity|].
    eexists. reflexivity.
  - destruct (Hbody dd (log (Opened (client_url dd) (client_headers dd)) w))
      as (sents & Hev & Hlen & Hsent).
    destruct (body dd _) as [[a|e] w2]; cbn [snd] in Hev.
    + destruct (Hfinish a (log Closed w2)) as [(out & ->) | (e & ->)]; cbn [fst snd].
      * exists (Opened (client_url dd) (client_headers dd) :: sents ++ [Closed; Echo out])%list.
        split.
        -- unfold log. cbn [events]. rewrite Hev. cbn [log events].
           rewrite <- !app_assoc. reflexivity.
        -- right. exists dd, sents. repeat split; auto. left. eauto.
      * exists (Opened (client_url dd) (client_headers dd) :: sents ++ [Closed])%list.
        split.
        -- unfold log. cbn [events]. rewrite Hev. cbn [log events].
           rewrite <- !app_assoc. reflexivity.
        -- right. exists dd, sents. repeat split; auto. right. eauto.
    + cbn [fst snd].
      exists (Opened (client_url dd) (client_headers dd) :: sents ++ [Closed])%list.
      split.
      * unfold log. cbn [events]. rewrite Hev. cbn [log events].
        rewrite <- !app_assoc. reflexivity.
      * right. exists dd, sents. repeat split; auto. right. eauto.
Qed.

Lemma get_client_either site w :
  (exists e, _get_client getenv site w = (Raise e, w))
  \/ exists dd, _get_client getenv site w
                = (Ok dd, log (Opened (client_url dd) (client_headers dd)) w).
Proof.
  unfold _get_client.
  destruct (absent (env getenv "DD_API_KEY" None) || absent (env getenv "DD_APP_KEY" None)).
  - left. eexists. reflexivity.
  - unfold new_client. destruct (Url._api_host site).
    + right. eexists (mkClient _ _). reflexivity.
    + left. eexists. reflexivity.
Qed.

Lemma new_client_either site api_key app_key w :
  (exists e, new_client site api_key app_key w = (Raise e, w))
  \/ exists dd, new_client site api_key app_key w
                = (Ok dd, log (Opened (client_url dd) (client_headers dd)) w).
Proof.
  unfold new_client. destruct (Url._api_host site).
  - right. eexists (mkClient _ _). reflexivity.
  - left. eexists. reflexivity.
Qed.

(** X7: every command keeps the discipline of a session.  What it adds to
    the events is nothing, when it fails before it has a client; otherwise
    the construction of one client, then exchanges that all go through that
    client (its base URL and its headers), then the release of the client,
    on every way out, and last, only when the command returns, one printed
    text.  The exchanges are at most 3 for [get-incident], 1 for
    [update-incident] and [validate], and 50 or 1 for [search-logs]. *)
Theorem commands_keep_session_discipline :
  forall w : world,
    (forall incident_id site include_param enrich,
        let run := get_incident_cmd repr dumps getenv remote incident_id site
                     include_param enrich w in
        exists added, events (snd run) = (events w ++ added)%list
                      /\ session 3 (fst run) added)
    /\ (forall incident_id site o,
        let run := update_incident_cmd repr dumps getenv remote incident_id site o w in
        exists added, events (snd run) = (events w ++ added)%list
                      /\ session 1 (fst run) added)
    /\ (forall site,
        let run := validate_cmd repr dumps getenv remote site w in
        exists added, events (snd run) = (events w ++ added)%list
                      /\ session 1 (fst run) added)
    /\ (forall query site time_from time_to limit storage_tier all_pages,
        let run := search_logs_cmd repr dumps getenv remote query site time_from time_to
                     limit storage_tier all_pages w in
        exists added, events (snd run) = (events w ++ added)%list
                      /\ session (if all_pages then 50 else 1) (fst run) added).
Proof.
  intros w.
  assert (Hnone : forall (res : result unit) (e : exn),
            res = Raise e ->
            exists added, events w = (events w ++ added)%list /\ session 0 res added).
  { intros res e ->. exists []. rewrite app_nil_r. split; [reflexivity|]. left. eauto. }
  split; [|split; [|split]].
  - intros incident_id site include_param enrich.
    apply (command_session 3 (_get_client getenv site)
             (fun dd => data <- get_incident repr remote dd incident_id include_param ;;
                        set_data data ;;;
                        if enrich then _enrich_incident repr remote dd else ret tt)
             (fun _ => data <- get_data ;; echo (dumps data))).
    + apply get_client_either.
    + intros dd. apply (sends_bind dd 1 2); [apply sends_request|]. intros data.
      apply (sends_bind dd 0 2); [now apply sends_same_events|]. intros _.
      destruct enrich; [apply sends_enrich_incident|].
      apply (sends_weaken dd 0 2); [lia | apply sends_ret].
    + intros a w0. left. eexists. reflexivity.
  - intros incident_id site o. cbv zeta. unfold update_incident_cmd.
    unfold bind at 1. unfold lift.
    destruct (_build_update_attributes o) as [[|kv attrs]|e].
    + exists []. rewrite app_nil_r. split; [reflexivity|]. left. split; [reflexivity|].
      eexists. reflexivity.
    + apply (command_session 1 (_get_client getenv site)
               (fun dd => update_incident repr remote dd incident_id (kv :: attrs))
               (fun data => echo (dumps data))).
      * apply get_client_either.
      * intros dd. apply sends_request.
      * intros a w0. left. eexists. reflexivity.
    + exists []. rewrite app_nil_r. split; [reflexivity|]. left. split; [reflexivity|].
      eexists. reflexivity.
  - intros site. cbv zeta. unfold validate_cmd.
    destruct (absent (env getenv "DD_API_KEY" None)).
    + exists []. rewrite app_nil_r. split; [reflexivity|]. left. split; [reflexivity|].
      eexists. reflexivity.
    + apply (command_session 1 (new_client site _ _) (fun dd => validate repr remote dd)
               (fun data =>
                  match data with
                  | JObj d => echo (dumps (JObj (update [("status", JInt 200)] d)))
                  | _ => raise (TypeError ("'" ++ type_name data ++ "' object is not a mapping"))
                  end)).
      * apply new_client_either.
      * intros dd. apply sends_request.
      * intros a w0. destruct a; try (right; eexists; reflexivity).
        left. eexists. reflexivity.
  - intros query site time_from time_to limit storage_tier all_pages. cbv zeta.
    unfold search_logs_cmd.
    apply (command_session (if all_pages then 50 else 1) (_get_client getenv site)
             (fun dd => search_loop repr remote dd
                          (mkSearch query time_from time_to limit [] storage_tier)
                          (if all_pages then 50 else 1) JNull [])
             (fun all_logs =>
                echo (dumps (JObj [("data", JArr all_logs);
                                   ("count", JInt (Z.of_nat (List.length all_logs)))])))).
    + apply get_client_either.
    + intros dd. apply sends_search_loop.
    + intros a w0. left. eexists. reflexivity.
Qed.

End SessionFacts.

(* ===================================================================== *)
(** * Further properties: credentials *)
(* ===================================================================== *)

Section CredentialFacts.

Variable repr dumps : json -> string.
Variable getenv : string -> option string.
Variable remote : list event -> request -> transport.

Lemma env_unset var : unset getenv var -> env getenv var None = None.
Proof. unfold env. now intros [-> | ->]. Qed.

Lemma env_set var v : getenv var = Some v -> v <> "" -> env getenv var None = Some v.
Proof.
  intros H Hne. unfold env. rewrite H.
  now destruct (String.eqb_spec v "").
Qed.

Lemma get_client_missing site w :
  unset getenv "DD_API_KEY" \/ unset getenv "DD_APP_KEY" ->
  _get_client getenv site w
  = (Raise (UsageError "DD_API_KEY and DD_APP_KEY must be set. The v2 APIs require both."),
     w).
Proof.
  intros H. unfold _get_client.
  assert (Hab : absent (env getenv "DD_API_KEY" None)
                || absent (env getenv "DD_APP_KEY" None) = true).
  { destruct H as [H|H]; rewrite (env_unset _ H); [reflexivity | apply orb_true_r]. }
  now rewrite Hab.
Qed.

(** X8: when [DD_API_KEY] or [DD_APP_KEY] is not set, or set to the empty
    text, [get-incident], [search-logs] and [update-incident] (given
    something to update) raise the usage error that asks for both keys,
    and leave the world as it was: no client, no request. *)
Theorem commands_need_both_keys :
  forall (w : world),
    unset getenv "DD_API_KEY" \/ unset getenv "DD_APP_KEY" ->
    let missing :=
      UsageError "DD_API_KEY and DD_APP_KEY must be set. The v2 APIs require both." in
    (forall incident_id site include_param enrich,
        get_incident_cmd repr dumps getenv remote incident_id site include_param enrich w
        = (Raise missing, w))
    /\ (forall query site time_from time_to limit storage_tier all_pages,
        search_logs_cmd repr dumps getenv remote query site time_from time_to limit
          storage_tier all_pages w
        = (Raise missing, w))
    /\ (forall incident_id site o attrs,
        _build_update_attributes o = Ok attrs -> attrs <> [] ->
        update_incident_cmd repr dumps getenv remote incident_id site o w
        = (Raise missing, w)).
Proof.
  intros w H missing. split; [|split].
  - intros. unfold get_incident_cmd. unfold bind at 1.
    rewrite session_run, (get_client_missing site w H). reflexivity.
  - intros. unfold search_logs_cmd. unfold bind at 1.
    rewrite session_run, (get_client_missing site w H). reflexivity.
  - intros incident_id site o attrs Hb Hne. unfold update_incident_cmd.
    unfold bind at 1. unfold lift. rewrite Hb.
    destruct attrs as [|kv attrs]; [contradiction|].
    unfold bind. rewrite session_run, (get_client_missing site w H). reflexivity.
Qed.

(** The run of [validate] when the API key is set and the site is right *)
Lemma validate_cmd_run site host key w :
  getenv "DD_API_KEY" = Some key -> key <> "" ->
  Url._normalize_site site = Some host ->
  let app_key := match env getenv "DD_APP_KEY" None with
                 | Some k => if String.eqb k "" then "unused" else k
                 | None => "unused"
                 end in
  let opened := Opened ("https://api." ++ host) (headers_of key app_key) in
  let rq := validate_request host key app_key in
  let tr := remote (events w ++ [opened])%list rq in
  let w2 := mkWorld (events w ++ [opened; Sent rq tr; Closed])%list (incident w) in
  validate_cmd repr dumps getenv remote site w
  = match outcome_of repr tr with
    | Ok (JObj d) =>
        (Ok tt, log (Echo (dumps (JObj (update [("status", JInt 200)] d)))) w2)
    | Ok data =>
        (Raise (TypeError ("'" ++ type_name data ++ "' object is not a mapping")), w2)
    | Raise e => (Raise (at_boundary dumps e), w2)
    end.
Proof.
  intros Hkey Hne Hsite app_key opened rq tr w2.
  unfold validate_cmd. rewrite (env_set _ _ Hkey Hne).
  assert (Hk : absent (Some key) = false) by (now apply String.eqb_neq).
  rewrite Hk. fold app_key. unfold bind. rewrite session_run.
  unfold new_client, Url._api_host. rewrite Hsite. cbn [option_map].
  fold (headers_of key app_key). fold opened.
  unfold validate. rewrite request_step.
  change (request_of _ "GET" "/api/v1/validate" None None) with rq.
  cbn [log events incident]. fold tr.
  assert (Hw2 : log Closed (log (Sent rq tr) (log opened w)) = w2).
  { unfold w2, log. cbn [events incident]. now rewrite <- !app_assoc. }
  destruct (outcome_of repr tr) as [data|e]; rewrite Hw2; [|reflexivity].
  now destruct data.
Qed.

(** X9: [validate] asks for the API key alone.  Without it (unset or
    empty) the command raises its usage error and leaves the world as it
    was, whatever [DD_APP_KEY] is; with it, the client carries the
    application key of the environment when there is one, the placeholder
    otherwise, and one request is sent. *)
Theorem validate_keys :
  forall (site : string) (w : world),
    (unset getenv "DD_API_KEY" ->
     validate_cmd repr dumps getenv remote site w
     = (Raise (UsageError "DD_API_KEY must be set"), w))
    /\ (forall host key app_key,
        getenv "DD_API_KEY" = Some key -> key <> "" ->
        getenv "DD_APP_KEY" = Some app_key -> app_key <> "" ->
        Url._normalize_site site = Some host ->
        exists tr rest,
          events (snd (validate_cmd repr dumps getenv remote site w))
          = (events w ++ [Opened ("https://api." ++ host) (headers_of key app_key);
                          Sent (validate_request host key app_key) tr; Closed] ++ rest)%list).
Proof.
  intros site w. split.
  - intros H. unfold validate_cmd. now rewrite (env_unset _ H).
  - intros host key app_key Hk Hkne Ha Hane Hs.
    rewrite (validate_cmd_run site host key w Hk Hkne Hs).
    rewrite (env_set _ _ Ha Hane).
    assert (E : String.eqb app_key "" = false) by (now apply String.eqb_neq).
    rewrite E. eexists.
    match goal with |- context [outcome_of repr ?t] => destruct (outcome_of repr t) as [[]|] end;
      cbn [snd log events]; rewrite <- ?app_assoc; cbn [app];
      eexists; try reflexivity; now rewrite app_nil_r.
Qed.

End CredentialFacts.

Lemma commands_need_both_keys_witness :
  search_logs_cmd Sample.render Sample.render
    (Sample.environ [("DD_API_KEY", "k-api"); ("DD_APP_KEY", "")])
    (Sample.script []) "error" "us3.datadoghq.com" "now-15m" "now" 100 None true start
  = (Raise (UsageError "DD_API_KEY and DD_APP_KEY must be set. The v2 APIs require both."),
     start).
Proof.
  exact (proj1 (proj2 (commands_need_both_keys Sample.render Sample.render
                         (Sample.environ [("DD_API_KEY", "k-api"); ("DD_APP_KEY", "")])
                         (Sample.script []) start (or_intror (or_intror eq_refl))))
           "error" "us3.datadoghq.com" "now-15m" "now" 100%Z None true).
Defined.

Lemma validate_keys_witness :
  validate_cmd Sample.render Sample.render (Sample.environ [("DD_APP_KEY", "k-app")])
    (Sample.script []) "us3.datadoghq.com" start
  = (Raise (UsageError "DD_API_KEY must be set"), start).
Proof.
  exact (proj1 (validate_keys Sample.render Sample.render
                  (Sample.environ [("DD_APP_KEY", "k-app")]) (Sample.script [])
                  "us3.datadoghq.com" start) (or_introl eq_refl)).
Defined.

(* ===================================================================== *)
(** * Further properties: get-incident *)
(* ===================================================================== *)

Section GetIncidentMore.

Variable repr dumps : json -> string.
Variable getenv : string -> option string.
Variable remote : list event -> request -> transport.

(** The run of [get-incident] up to the answer to its first request *)
Lemma get_incident_cmd_run incident_id site host api_key app_key include_param enrich w :
  getenv "DD_API_KEY" = Some api_key -> api_key <> "" ->
  getenv "DD_APP_KEY" = Some app_key -> app_key <> "" ->
  Url._normalize_site site = Some host ->
  let dd := mkClient ("https://api." ++ host) (headers_of api_key app_key) in
  let opened := Opened ("https://api." ++ host) (headers_of api_key app_key) in
  let rq0 := incident_request dd incident_id include_param in
  let tr := remote (events w ++ [opened])%list rq0 in
  let w1 := mkWorld (events w ++ [opened; Sent rq0 tr])%list (incident w) in
  get_incident_cmd repr dumps getenv remote incident_id site include_param enrich w
  = match outcome_of repr tr with
    | Raise e => (Raise (at_boundary dumps e), log Closed w1)
    | Ok data =>
        let w2 := mkWorld (events w1) data in
        if enrich then
          match _enrich_incident repr remote dd w2 with
          | (Ok _, w3) => (Ok tt, log (Echo (dumps (incident w3))) (log Closed w3))
          | (Raise e, w3) => (Raise (at_boundary dumps e), log Closed w3)
          end
        else (Ok tt, log (Echo (dumps data)) (log Closed w2))
    end.
Proof.
  intros Ha Hane Hp Hpne Hs dd opened rq0 tr w1.
  unfold get_incident_cmd. unfold bind at 1. rewrite session_run.
  rewrite (get_client_ok getenv site host api_key app_key w Ha Hane Hp Hpne Hs).
  fold dd. fold opened. unfold bind at 1. unfold get_incident. rewrite request_step.
  change (request_of dd "GET" ("/api/v2/incidents/" ++ incident_id) _ None) with rq0.
  cbn [log events incident]. fold tr.
  assert (Hw1 : log (Sent rq0 tr) (log opened w) = w1).
  { unfold w1, log. cbn [events incident]. now rewrite <- app_assoc. }
  rewrite Hw1.
  destruct (outcome_of repr tr) as [data|e]; [|reflexivity].
  unfold bind at 1. unfold set_data at 1. cbv zeta.
  destruct enrich.
  - destruct (_enrich_incident repr remote dd (mkWorld (events w1) data)) as [[[]|e] w3];
      reflexivity.
  - reflexivity.
Qed.


(** X11: when the first request of [get-incident] fails, nothing is
    printed, no auxiliary lookup is made, with or without [--enrich], and
    the client is released.  For an answer outside 2xx the command raises
    the [ClickException] of the object [{error, status, body}], [error]
    being the message followed by ["(status=N)"]; for a transport failure
    it raises the one of the text ["Network error: ..."]. *)
Theorem get_incident_first_request_fails :
  forall (incident_id site host api_key app_key : string) (include_param : option string)
         (enrich : bool) (w : world),
    getenv "DD_API_KEY" = Some api_key -> api_key <> "" ->
    getenv "DD_APP_KEY" = Some app_key -> app_key <> "" ->
    Url._normalize_site site = Some host ->
    let dd := mkClient ("https://api." ++ host) (headers_of api_key app_key) in
    let opened := Opened ("https://api." ++ host) (headers_of api_key app_key) in
    let rq0 := incident_request dd incident_id include_param in
    let run := get_incident_cmd repr dumps getenv remote incident_id site include_param
                 enrich w in
    (forall r0,
        remote (events w ++ [opened])%list rq0 = Response r0 -> is_success r0 = false ->
        exists message,
          status_error repr r0 = DatadogAPIError (status_code r0) message (text r0)
          /\ run = (Raise (ClickException
                             (dumps (api_error_object (status_code r0) message (text r0)))),
                    mkWorld (events w ++ [opened; Sent rq0 (Response r0); Closed])%list
                      (incident w)))
    /\ (forall m,
        remote (events w ++ [opened])%list rq0 = RequestError m ->
        run = (Raise (ClickException ("Network error: " ++ m)),
               mkWorld (events w ++ [opened; Sent rq0 (RequestError m); Closed])%list
                 (incident w))).
Proof.
  intros incident_id site host api_key app_key include_param enrich w
    Ha Hane Hp Hpne Hs dd opened rq0 run. subst run.
  rewrite (get_incident_cmd_run incident_id site host api_key app_key include_param enrich w
             Ha Hane Hp Hpne Hs).
  fold dd. fold opened. fold rq0. split.
  - intros r0 Hr Hno. rewrite Hr. cbn [outcome_of]. rewrite Hno.
    unfold status_error at 1 2. eexists. split; [reflexivity|].
    cbn [at_boundary]. unfold log. cbn [events incident]. now rewrite <- !app_assoc.
  - intros m Hr. rewrite Hr. cbn [outcome_of at_boundary].
    unfold log. cbn [events incident]. now rewrite <- !app_assoc.
Qed.

End GetIncidentMore.


Lemma get_incident_first_request_fails_witness :
  fst (get_incident_cmd Sample.render Sample.render (Sample.environ Sample.keys)
         (Sample.script [RequestError "timed out"])
         "7" "us3.datadoghq.com" None true start)
  = Raise (ClickException "Network error: timed out").
Proof.
  exact (f_equal fst
           (proj2 (get_incident_first_request_fails Sample.render Sample.render
                     (Sample.environ Sample.keys) (Sample.script [RequestError "timed out"])
                     "7" "us3.datadoghq.com" "us3.datadoghq.com" "k-api" "k-app" None true
                     start eq_refl ltac:(discriminate) eq_refl ltac:(discriminate) eq_refl)
              "timed out" eq_refl)).
Defined.

(* ===================================================================== *)
(** * Further properties: the enrichment *)
(* ===================================================================== *)

Module AppendFacts.

Lemma lookup_app_other (k k' : string) (v : json) (d : dict) :
  k <> k' -> lookup k (d ++ [(k', v)])%list = lookup k d.
Proof.
  intros Hne. induction d as [|[k0 v0] d IH]; simpl.
  - destruct (String.eqb_spec k' k); [congruence | reflexivity].
  - now rewrite IH.
Qed.

Lemma lookup_app_absent (k : string) (v : json) (d : dict) :
  lookup k d = None -> lookup k (d ++ [(k, v)])%list = Some v.
Proof.
  induction d as [|[k0 v0] d IH]; simpl.
  - now rewrite String.eqb_refl.
  - destruct (String.eqb k0 k); [discriminate | exact IH].
Qed.

Lemma store_app_absent (k : string) (v v' : json) (d : dict) :
  lookup k d = None -> store k v' (d ++ [(k, v)])%list = (d ++ [(k, v')])%list.
Proof.
  induction d as [|[k0 v0] d IH]; simpl.
  - now rewrite String.eqb_refl.
  - destruct (String.eqb k0 k); [discriminate|]. intros H. now rewrite IH.
Qed.

Lemma get_app_other (k k' : string) (v default : json) (d : dict) :
  k <> k' -> get (JObj (d ++ [(k', v)])%list) k default = get (JObj d) k default.
Proof. intros Hne. unfold get. now rewrite lookup_app_other. Qed.

End AppendFacts.

Section EnrichMore.

Variable repr : json -> string.
Variable remote : list event -> request -> transport.

(** [enrich_with] on an incident without [enrichment], and on one whose
    [enrichment] was added last *)
Lemma enrich_with_first d k x evs :
  lookup "enrichment" d = None ->
  enrich_with k x (mkWorld evs (JObj d))
  = (Ok tt, mkWorld evs (JObj (d ++ [("enrichment", JObj [(k, x)])])%list)).
Proof.
  intros Hnone. unfold enrich_with, bind, get_data, lift, set_data, setdefault_setitem.
  cbn [incident events]. rewrite Hnone. cbn [setitem store].
  now rewrite (DictFacts.store_absent _ _ _ Hnone).
Qed.

Lemma enrich_with_next d k x evs enr :
  lookup "enrichment" d = None ->
  enrich_with k x (mkWorld evs (JObj (d ++ [("enrichment", JObj enr)])%list))
  = (Ok tt, mkWorld evs (JObj (d ++ [("enrichment", JObj (store k x enr))])%list)).
Proof.
  intros Hnone. unfold enrich_with, bind, get_data, lift, set_data, setdefault_setitem.
  cbn [incident events]. rewrite (AppendFacts.lookup_app_absent _ _ _ Hnone).
  cbn [setitem]. now rewrite (AppendFacts.store_app_absent _ _ _ _ Hnone).
Qed.

(** X12: when both lookups succeed on an incident without [enrichment],
    the enrichment makes the type lookup, then the integrations lookup, and
    adds as last member [enrichment], holding [incident_type] and then
    [integrations] with the two parsed bodies. *)
Theorem enrich_incident_both_lookups :
  forall (dd : DatadogClient) (d : dict) (evs : list event) (uuid id : json)
         (r1 r2 : response) (j1 j2 : json),
    lookup "enrichment" d = None ->
    type_uuid d = Ok uuid -> truthy uuid = true ->
    incident_id_of d = Ok id -> truthy id = true ->
    let rq1 := type_request repr dd uuid in
    let rq2 := integrations_request repr dd id in
    remote evs rq1 = Response r1 -> is_success r1 = true -> json_ r1 = Parsed j1 ->
    remote (evs ++ [Sent rq1 (Response r1)])%list rq2 = Response r2 ->
    is_success r2 = true -> json_ r2 = Parsed j2 ->
    _enrich_incident repr remote dd (mkWorld evs (JObj d))
    = (Ok tt,
       mkWorld (evs ++ [Sent rq1 (Response r1); Sent rq2 (Response r2)])%list
         (JObj (d ++ [("enrichment",
                       JObj [("incident_type", j1); ("integrations", j2)])])%list)).
Proof.
  intros dd d evs uuid id r1 r2 j1 j2 Hnone Hu Htu Hid Hti rq1 rq2
    Hr1 Hs1 Hj1 Hr2 Hs2 Hj2.
  unfold _enrich_incident, try_except.
  rewrite (enrich_body_eq repr remote dd (mkWorld evs (JObj d)) d eq_refl), Hu, Htu.
  unfold bind at 1. unfold type_block, try_except. unfold bind at 1.
  unfold get_incident_type. rewrite request_step. fold (type_request repr dd uuid). fold rq1.
  cbn [events log incident]. rewrite Hr1. cbn [outcome_of]. rewrite Hs1, Hj1.
  unfold log. cbn [events incident].
  rewrite (enrich_with_first d "incident_type" j1 _ Hnone).
  unfold integrations_block, try_except. unfold bind at 1 2 3. unfold get_data, lift.
  cbn [incident events].
  rewrite AppendFacts.get_app_other by discriminate.
  unfold incident_id_of in Hid.
  destruct (get (JObj d) "data" (JObj [])) as [x|e]; [|discriminate Hid].
  rewrite Hid, Hti. unfold bind at 1. unfold get_incident_integrations.
  rewrite request_step. fold (integrations_request repr dd id). fold rq2.
  cbn [events log incident]. rewrite Hr2. cbn [outcome_of]. rewrite Hs2, Hj2.
  unfold log. cbn [events incident].
  rewrite (enrich_with_next d "integrations" j2 _ _ Hnone).
  cbn [store]. rewrite <- app_assoc. reflexivity.
Qed.

(** X13: when the incident has neither a truthy type identifier nor a
    truthy identifier (for one, when it has no [data] member), the
    enrichment sends nothing and leaves the incident and the world as they
    are. *)
Theorem enrich_incident_nothing_to_look_up :
  forall (dd : DatadogClient) (d : dict) (w : world) (uuid id : json),
    incident w = JObj d ->
    type_uuid d = Ok uuid -> truthy uuid = false ->
    incident_id_of d = Ok id -> truthy id = false ->
    _enrich_incident repr remote dd w = (Ok tt, w).
Proof.
  intros dd d w uuid id Hd Hu Htu Hid Hti.
  unfold _enrich_incident, try_except.
  rewrite (enrich_body_eq repr remote dd w d Hd), Hu, Htu.
  unfold bind at 1. unfold ret at 1.
  unfold integrations_block, try_except. unfold bind, get_data, lift. rewrite Hd.
  unfold incident_id_of in Hid.
  destruct (get (JObj d) "data" (JObj [])) as [x|e]; [|discriminate Hid].
  now rewrite Hid, Hti.
Qed.

(** X14: when the type lookup fails in the transport, on an incident
    without [enrichment], the integrations lookup is not made: the
    enrichment has sent one request, and it adds [enrichment] with the one
    member [errors], the text of the failure. *)
Theorem enrich_incident_type_transport_failure :
  forall (dd : DatadogClient) (d : dict) (evs : list event) (uuid : json) (m : string),
    lookup "enrichment" d = None ->
    type_uuid d = Ok uuid -> truthy uuid = true ->
    remote evs (type_request repr dd uuid) = RequestError m ->
    _enrich_incident repr remote dd (mkWorld evs (JObj d))
    = (Ok tt,
       mkWorld (evs ++ [Sent (type_request repr dd uuid) (RequestError m)])%list
         (JObj (d ++ [("enrichment",
                       JObj [("errors",
                              JStr ("Enrichment failed: Network error: " ++ m))])])%list)).
Proof.
  intros dd d evs uuid m Hnone Hu Htu Hr.
  unfold _enrich_incident, try_except.
  rewrite (enrich_body_eq repr remote dd (mkWorld evs (JObj d)) d eq_refl), Hu, Htu.
  unfold bind at 1. unfold type_block, try_except. unfold bind at 1.
  unfold get_incident_type. rewrite request_step. fold (type_request repr dd uuid).
  cbn [events log incident]. rewrite Hr. cbn [outcome_of pass_api_error].
  unfold log. cbn [events incident str_exn].
  now rewrite (enrich_with_first d "errors" _ _ Hnone).
Qed.

End EnrichMore.

Lemma enrich_incident_both_lookups_witness :
  let d := [("data", JObj [("id", JStr "7");
                           ("attributes", JObj [("incident_type_uuid", JStr "u")])])] in
  let dd := mkClient "https://api.us3.datadoghq.com" [] in
  incident (snd (_enrich_incident Sample.render
                   (Sample.script [Sample.answer 200 "{}" (JObj [("name", JStr "sec")]);
                                   Sample.answer 200 "{}" (JObj [("data", JArr [])])])
                   dd (mkWorld [] (JObj d))))
  = JObj (d ++ [("enrichment",
                 JObj [("incident_type", JObj [("name", JStr "sec")]);
                       ("integrations", JObj [("data", JArr [])])])])%list.
Proof.
  intros d dd.
  exact (f_equal (fun x => incident (snd x))
           (enrich_incident_both_lookups Sample.render
              (Sample.script [Sample.answer 200 "{}" (JObj [("name", JStr "sec")]);
                              Sample.answer 200 "{}" (JObj [("data", JArr [])])])
              dd d [] (JStr "u") (JStr "7") _ _ _ _
              eq_refl eq_refl eq_refl eq_refl eq_refl
              eq_refl eq_refl eq_refl eq_refl eq_refl eq_refl)).
Defined.

Lemma enrich_incident_nothing_witness :
  _enrich_incident Sample.render (Sample.script [])
    (mkClient "https://api.us3.datadoghq.com" [])
    (mkWorld [] (JObj [("errors", JArr [])]))
  = (Ok tt, mkWorld [] (JObj [("errors", JArr [])])).
Proof.
  exact (enrich_incident_nothing_to_look_up Sample.render (Sample.script [])
           (mkClient "https://api.us3.datadoghq.com" []) [("errors", JArr [])]
           (mkWorld [] (JObj [("errors", JArr [])])) JNull (JStr "")
           eq_refl eq_refl eq_refl eq_refl eq_refl).
Defined.

Lemma enrich_incident_transport_failure_witness :
  let d := [("data", JObj [("id", JStr "7");
                           ("attributes", JObj [("incident_type_uuid", JStr "u")])])] in
  _enrich_incident Sample.render (Sample.script [RequestError "timed out"])
    (mkClient "https://api.us3.datadoghq.com" []) (mkWorld [] (JObj d))
  = (Ok tt,
     mkWorld [Sent (type_request Sample.render
                      (mkClient "https://api.us3.datadoghq.com" []) (JStr "u"))
                (RequestError "timed out")]
       (JObj (d ++ [("enrichment",
                     JObj [("errors",
                            JStr "Enrichment failed: Network error: timed out")])])%list)).
Proof.
  intros d.
  exact (enrich_incident_type_transport_failure Sample.render
           (Sample.script [RequestError "timed out"])
           (mkClient "https://api.us3.datadoghq.com" []) d [] (JStr "u") "timed out"
           eq_refl eq_refl eq_refl eq_refl).
Defined.

(* ===================================================================== *)
(** * Further properties: update-incident, search-logs, validate *)
(* ===================================================================== *)

Section CommandsMore.

Variable repr dumps : json -> string.
Variable getenv : string -> option string.
Variable remote : list event -> request -> transport.


(** X16: without [--all-pages], [search-logs] sends one request, without
    cursor, and prints the entries of the page it gets and their number;
    the cursor of that page is not followed. *)
Theorem search_logs_one_page :
  forall (query site host api_key app_key time_from time_to : string) (limit : Z)
         (storage_tier : option string) (w : world) (tr : transport)
         (logs : list json) (c : json),
    getenv "DD_API_KEY" = Some api_key -> api_key <> "" ->
    getenv "DD_APP_KEY" = Some app_key -> app_key <> "" ->
    Url._normalize_site site = Some host ->
    let dd := mkClient ("https://api." ++ host) (headers_of api_key app_key) in
    let opened := Opened ("https://api." ++ host) (headers_of api_key app_key) in
    let a := mkSearch query time_from time_to limit [] storage_tier in
    let rq := search_request dd a JNull in
    remote (events w ++ [opened])%list rq = tr ->
    page_of tr = Some (logs, c) ->
    search_logs_cmd repr dumps getenv remote query site time_from time_to limit
      storage_tier false w
    = (Ok tt,
       mkWorld (events w ++ [opened; Sent rq tr; Closed;
                             Echo (dumps (JObj [("data", JArr logs);
                                                ("count", JInt (Z.of_nat (List.length logs)))]))])%list
         (incident w)).
Proof.
  intros query site host api_key app_key time_from time_to limit storage_tier w tr logs c
    Ha Hane Hp Hpne Hs dd opened a rq Hr Hpage.
  unfold search_logs_cmd. fold a. unfold bind. rewrite session_run.
  rewrite (get_client_ok getenv site host api_key app_key w Ha Hane Hp Hpne Hs).
  fold dd. fold opened. cbn [search_loop]. unfold bind at 1.
  rewrite search_logs_step. cbv zeta. fold rq. cbn [log events incident]. rewrite Hr.
  unfold page_of in Hpage.
  destruct tr as [r|m]; [|discriminate Hpage].
  destruct (is_success r); [|discriminate Hpage].
  destruct (json_ r) as [data|m]; [|discriminate Hpage].
  unfold bind, lift.
  destruct (page_logs data) as [logs'|e]; [|discriminate Hpage].
  destruct (page_cursor data) as [c'|e]; [|discriminate Hpage].
  injection Hpage as -> ->.
  assert (Hend : (if negb (truthy c) then ret (A := list json) ([] ++ logs)%list
                  else ret ([] ++ logs)%list) = ret logs) by (now destruct (truthy c)).
  rewrite Hend. unfold ret, echo, log. cbn [events incident].
  now rewrite <- !app_assoc.
Qed.

(** X17: the body of a search request leaves an optional field out rather
    than sending it empty: [page.cursor] is there exactly for a truthy
    cursor, [filter.storage_tier] for a non-empty tier, [filter.indexes]
    for a non-empty list; the query, the time range, the sort order
    ["-timestamp"] and the page limit are always there. *)
Theorem search_body_optional_fields :
  forall (a : search_args) (cursor : json),
    let body := search_body a cursor in
    member2 body "page" "cursor" = (if truthy cursor then Some cursor else None)
    /\ member2 body "filter" "storage_tier"
       = match storage_tier a with
         | Some t => if String.eqb t "" then None else Some (JStr t)
         | None => None
         end
    /\ member2 body "filter" "indexes"
       = match indexes a with
         | [] => None
         | ix => Some (JArr (map JStr ix))
         end
    /\ member2 body "filter" "query" = Some (JStr (query a))
    /\ member2 body "filter" "from" = Some (JStr (time_from a))
    /\ member2 body "filter" "to" = Some (JStr (time_to a))
    /\ member2 body "page" "limit" = Some (JInt (limit a))
    /\ get body "sort" JNull = Ok (JStr "-timestamp").
Proof.
  intros [q tf tt lim ix tier] cursor body. subst body. unfold search_body.
  cbn [query time_from time_to limit indexes storage_tier].
  destruct (truthy cursor), ix as [|i ix], tier as [t|];
    try (destruct (String.eqb t "") eqn:E); cbn; rewrite ?E;
    repeat split; reflexivity.
Qed.

Lemma lookup_absent_key (k : string) (d : dict) :
  ~ In k (keys_of d) -> lookup k d = None.
Proof.
  unfold keys_of. induction d as [|[k0 v0] d IH]; simpl; [reflexivity|].
  intros Hn. destruct (String.eqb_spec k0 k) as [->|Hne]; [tauto | apply IH; tauto].
Qed.

(** [{**a, **b}[k]], for a [b] that has each key once *)
Lemma lookup_update (a b : dict) (k : string) :
  NoDup (keys_of b) ->
  lookup k (update a b)
  = match lookup k b with Some v => Some v | None => lookup k a end.
Proof.
  unfold update, keys_of. revert a. induction b as [|[k0 v0] b IH]; intros a Hnd; simpl.
  - reflexivity.
  - inversion Hnd as [|? ? Hnotin Hrest]; subst. rewrite (IH _ Hrest).
    destruct (String.eqb_spec k0 k) as [->|Hne].
    + rewrite (lookup_absent_key k b Hnotin). apply FieldFacts.lookup_store_same.
    + now rewrite FieldFacts.lookup_store_other by congruence.
Qed.

(** X18: what [validate] prints for a 2xx answer that is an object (whose
    keys are distinct) holds every member of the answer, and [status]: the
    one of the answer when it has one, 200 otherwise. *)
Theorem validate_prints_status :
  forall (site host key : string) (w : world) (r : response) (d : dict),
    getenv "DD_API_KEY" = Some key -> key <> "" ->
    Url._normalize_site site = Some host ->
    (forall app_key,
        remote (events w ++ [Opened ("https://api." ++ host) (headers_of key app_key)])%list
          (validate_request host key app_key) = Response r) ->
    is_success r = true -> json_ r = Parsed (JObj d) ->
    NoDup (keys_of d) ->
    exists (printed : dict) (evs : list event),
      validate_cmd repr dumps getenv remote site w
      = (Ok tt, mkWorld (evs ++ [Echo (dumps (JObj printed))])%list (incident w))
      /\ (forall k v, lookup k d = Some v -> lookup k printed = Some v)
      /\ (lookup "status" d = None -> lookup "status" printed = Some (JInt 200))
      /\ (forall k, k <> "status" -> lookup k d = None -> lookup k printed = None).
Proof.
  intros site host key w r d Hk Hne Hs Hr Hok Hj Hnd.
  rewrite (validate_cmd_run repr dumps getenv remote site host key w Hk Hne Hs).
  rewrite Hr. cbn [outcome_of]. rewrite Hok, Hj.
  exists (update [("status", JInt 200)] d). eexists.
  split; [unfold log; cbn [events incident]; reflexivity|].
  split; [|split].
  - intros k v Hv. now rewrite (lookup_update _ _ _ Hnd), Hv.
  - intros Hv. now rewrite (lookup_update _ _ _ Hnd), Hv.
  - intros k Hk' Hv. rewrite (lookup_update _ _ _ Hnd), Hv. cbn [lookup].
    destruct (String.eqb_spec "status" k); [congruence | reflexivity].
Qed.

End CommandsMore.


Lemma search_logs_one_page_witness :
  let page :=
    Sample.answer 200 "{}"
      (JObj [("data", JArr [JInt 1; JInt 2]);
             ("meta", JObj [("page", JObj [("after", JStr "c1")])])]) in
  let dd := mkClient "https://api.us3.datadoghq.com" (headers_of "k-api" "k-app") in
  search_logs_cmd Sample.render Sample.render (Sample.environ Sample.keys)
    (Sample.script [page; page]) "error" "us3.datadoghq.com" "now-15m" "now" 100 None
    false start
  = (Ok tt,
     mkWorld [Opened "https://api.us3.datadoghq.com" (headers_of "k-api" "k-app");
              Sent (search_request dd (mkSearch "error" "now-15m" "now" 100 [] None) JNull)
                page;
              Closed; Echo "<dict>"]
       JNull).
Proof.
  intros page dd.
  exact (search_logs_one_page Sample.render Sample.render (Sample.environ Sample.keys)
           (Sample.script [page; page]) "error" "us3.datadoghq.com" "us3.datadoghq.com"
           "k-api" "k-app" "now-15m" "now" 100%Z None start page [JInt 1; JInt 2]
           (JStr "c1") eq_refl ltac:(discriminate) eq_refl ltac:(discriminate) eq_refl
           eq_refl eq_refl).
Defined.

Lemma validate_prints_status_witness :
  exists (printed : dict) (evs : list event),
    validate_cmd Sample.render Sample.render (Sample.environ [("DD_API_KEY", "k-api")])
      (Sample.script [Sample.answer 200 "{}"
                        (JObj [("valid", JBool true); ("status", JStr "ok")])])
      "us3.datadoghq.com" start
    = (Ok tt, mkWorld (evs ++ [Echo (Sample.render (JObj printed))])%list JNull)
    /\ lookup "status" printed = Some (JStr "ok")
    /\ lookup "valid" printed = Some (JBool true).
Proof.
  destruct (validate_prints_status Sample.render Sample.render
              (Sample.environ [("DD_API_KEY", "k-api")])
              (Sample.script [Sample.answer 200 "{}"
                                (JObj [("valid", JBool true); ("status", JStr "ok")])])
              "us3.datadoghq.com" "us3.datadoghq.com" "k-api" start
              (mkResponse 200 "{}" (Parsed (JObj [("valid", JBool true); ("status", JStr "ok")])))
              [("valid", JBool true); ("status", JStr "ok")]
              eq_refl ltac:(discriminate) eq_refl (fun _ => eq_refl) eq_refl eq_refl)
    as (printed & evs & Hrun & Hkeep & _ & _).
  - repeat constructor; simpl; intuition discriminate.
  - exists printed, evs. split; [exact Hrun|]. split; apply Hkeep; reflexivity.
Defined.
